(** * Voice-design API: client (client.py) and service endpoint (server.py)

    A shallow embedding of the Python sources.  Python [str] values are
    lists of Unicode code points, the file system is a finite map from
    paths to file contents, and everything the program cannot decide by
    itself (the clock, the network and the service behind it, operating
    system failures, the Unicode tables beyond ASCII, pathlib's path
    arithmetic) is collected in one environment record over which every
    statement is quantified. *)

From Stdlib Require Import ZArith NArith List String Ascii DecimalString QArith.
From stdpp Require Import gmap list sorting.

Set Warnings "-clear-no-such-hyp".

(** ** Python strings *)

Module PyStr.

Local Open Scope N_scope.

(** A character is its code point; a [str] is the list of its characters. *)
Definition char := N.
Definition pystr := list N.

(** Literals of the source are written as UTF-8 text and decoded. *)
Definition bytes_of (s : string) : list N :=
  map N_of_ascii (list_ascii_of_string s).

Fixpoint utf8_decode (bs : list N) : pystr :=
  match bs with
  | [] => []
  | b :: rest =>
      if b <? 0x80 then b :: utf8_decode rest
      else if b <? 0xE0 then
        match rest with
        | b1 :: r => ((b - 0xC0) * 64 + (b1 - 0x80)) :: utf8_decode r
        | _ => []
        end
      else if b <? 0xF0 then
        match rest with
        | b1 :: b2 :: r =>
            ((b - 0xE0) * 4096 + (b1 - 0x80) * 64 + (b2 - 0x80)) :: utf8_decode r
        | _ => []
        end
      else
        match rest with
        | b1 :: b2 :: b3 :: r =>
            ((b - 0xF0) * 262144 + (b1 - 0x80) * 4096 + (b2 - 0x80) * 64
             + (b3 - 0x80)) :: utf8_decode r
        | _ => []
        end
  end.

Definition py (s : string) : pystr := utf8_decode (bytes_of s).

(** [str(n)] for an [int]. *)
Definition str_int (z : Z) : pystr :=
  bytes_of (NilZero.string_of_int (Z.to_int z)).

(** [c in s] for a one-character [c]. *)
Definition char_in (c : char) (s : pystr) : bool :=
  existsb (N.eqb c) s.

(** [str.isspace] on one character: the code points CPython classifies as
    whitespace. *)
Definition isspace (c : char) : bool :=
  ((0x09 <=? c) && (c <=? 0x0D)) || ((0x1C <=? c) && (c <=? 0x20))
  || (c =? 0x85) || (c =? 0xA0) || (c =? 0x1680)
  || ((0x2000 <=? c) && (c <=? 0x200A))
  || (c =? 0x2028) || (c =? 0x2029) || (c =? 0x202F) || (c =? 0x205F)
  || (c =? 0x3000).

Fixpoint lstrip (s : pystr) : pystr :=
  match s with
  | [] => []
  | c :: s' => if isspace c then lstrip s' else s
  end.

Definition rstrip (s : pystr) : pystr := rev (lstrip (rev s)).

(** [s.strip()] *)
Definition strip (s : pystr) : pystr := rstrip (lstrip s).

(** ASCII part of [str.isalnum] and [str.lower]. *)
Definition ascii_isalnum (c : char) : bool :=
  ((0x30 <=? c) && (c <=? 0x39)) || ((0x41 <=? c) && (c <=? 0x5A))
  || ((0x61 <=? c) && (c <=? 0x7A)).

Definition ascii_lower (c : char) : char :=
  if (0x41 <=? c) && (c <=? 0x5A) then c + 0x20 else c.

(** Truthiness of a [str]: the empty string is false. *)
Definition truthy (s : pystr) : bool :=
  match s with [] => false | _ => true end.

(** [s.startswith(p)] *)
Fixpoint startswith (p s : pystr) : bool :=
  match p, s with
  | [], _ => true
  | a :: p', b :: s' => (a =? b) && startswith p' s'
  | _ :: _, [] => false
  end.

(** [s.rfind(".")]: index of the last dot, if any. *)
Fixpoint rfind_dot_from (i : nat) (s : pystr) (last : option nat) : option nat :=
  match s with
  | [] => last
  | c :: s' => rfind_dot_from (S i) s' (if c =? 0x2E then Some i else last)
  end.

Definition rfind_dot (s : pystr) : option nat := rfind_dot_from 0 s None.

(** Lexicographic comparison of strings by code point ([<=] on [str]). *)
Fixpoint str_leb (s t : pystr) : bool :=
  match s, t with
  | [], _ => true
  | _ :: _, [] => false
  | a :: s', b :: t' => (a <? b) || ((a =? b) && str_leb s' t')
  end.

Definition str_le (s t : pystr) : Prop := str_leb s t = true.

#[global] Instance str_le_dec s t : Decision (str_le s t).
Proof. unfold str_le. apply _. Defined.

(** [x] occurs in [s] as a contiguous substring ([x in s]). *)
Definition contains (s x : pystr) : Prop :=
  exists pre post, s = pre ++ x ++ post.

End PyStr.
Import PyStr.

(** ** The world the client runs in *)

Definition bytes := list Byte.byte.

(** The query parameters of [POST /generate_audio]. *)
Record request := {
  req_text : pystr;
  req_language : pystr;
  req_instruct : pystr;
}.

(** What the client observes of a [requests.Response] obtained with
    [stream=True]: the status line, the body decoded as text
    ([response.text]), and the body as [iter_content] yields it, which may
    end in a transport error after some chunks. *)
Record response := {
  status_code : Z;
  reason : pystr;
  url : pystr;
  response_text : pystr;
  body : list bytes;
  body_error : option pystr;
}.

(** A [requests.HTTPError]: its message and the response it carries. *)
Record http_error := {
  he_msg : pystr;
  he_response : response;
}.

(** The exceptions the client raises or lets through.  A [ValueError]
    raised [from e] keeps [e] as its cause. *)
Inductive exn :=
| ValueError (msg : pystr) (cause : option http_error)
| Timeout (msg : pystr)                        (* requests.Timeout *)
| HTTPError (e : http_error)                   (* requests.HTTPError *)
| RequestException (msg : pystr)               (* any other requests error *)
| IOError (msg : pystr).                       (* OSError *)

(** [str(e)] *)
Definition str_exn (e : exn) : pystr :=
  match e with
  | ValueError msg _ => msg
  | Timeout msg => msg
  | HTTPError e => he_msg e
  | RequestException msg => msg
  | IOError msg => msg
  end.

(** Outcome of [requests.post]. *)
Inductive post_outcome :=
| PostTimeout (msg : pystr)
| PostFailed (msg : pystr)
| PostResponse (r : response).

Inductive syscall :=
| SysMkdir (p : pystr)
| SysOpen (p : pystr)
| SysWrite (p : pystr)
| SysStat (p : pystr).

Inductive log_record :=
| WarnIncomplete                                (* line 162 *)
| BatchDone (success_count total : nat).        (* lines 245-247 *)

Inductive event :=
| EvMkdir (p : pystr)
| EvPost (rq : request) (o : post_outcome)
| EvSleep (d : Q)
| EvLog (l : log_record).

(** Regular files by path, and the effects performed so far, newest
    first. *)
Record world := {
  files : gmap pystr bytes;
  trace : list event;
}.

(** Everything the client does not decide itself. *)
Record Env := {
  (** [c.isalnum()] and [c.lower()] for code points from 128 on *)
  unicode_isalnum : char -> bool;
  unicode_lower : char -> pystr;
  (** [str(Path(p).parent)] and [str(Path(d) / n)] *)
  path_parent : pystr -> pystr;
  path_join : pystr -> pystr -> pystr;
  (** [int(time.time())] *)
  time_time : world -> Z;
  (** the network and the service behind it *)
  http_post : world -> request -> post_outcome;
  (** a system call fails with this message, or goes through *)
  os_error : world -> syscall -> option pystr;
}.

(** ** Computations: state and exceptions *)

Inductive outcome (A : Type) :=
| Returns (a : A)
| Raises (e : exn).
Arguments Returns {A} a.
Arguments Raises {A} e.

Definition M (A : Type) := world -> outcome A * world.

Definition ret {A} (a : A) : M A := fun w => (Returns a, w).

Definition raise {A} (e : exn) : M A := fun w => (Raises e, w).

Definition bind {A B} (c : M A) (k : A -> M B) : M B :=
  fun w =>
    match c w with
    | (Returns a, w') => k a w'
    | (Raises e, w') => (Raises e, w')
    end.

(** [try: c except Exception as e: h e] *)
Definition try_except {A} (c : M A) (h : exn -> M A) : M A :=
  fun w =>
    match c w with
    | (Returns a, w') => (Returns a, w')
    | (Raises e, w') => h e w'
    end.

Declare Scope py_scope.
Delimit Scope py_scope with py.
Notation "x <- c ;; k" := (bind c (fun x => k))
  (at level 100, c at next level, right associativity) : py_scope.
Notation "c ;; k" := (bind c (fun _ => k))
  (at level 100, right associativity) : py_scope.

(** The world with one more effect on record. *)
Definition record (ev : event) (w : world) : world :=
  {| files := files w; trace := ev :: trace w |}.

Definition emit (ev : event) : M unit :=
  fun w => (Returns tt, record ev w).

Definition get_world : M world := fun w => (Returns w, w).

Definition set_files (fs : gmap pystr bytes) : M unit :=
  fun w => (Returns tt, {| files := fs; trace := trace w |}).

(** ** client.py *)

Module Client.
Section Client.

Variable E : Env.

Local Open Scope py_scope.
Local Open Scope Z_scope.

(** [c.isalnum()] and [s.lower()], ASCII decided here, the rest by the
    Unicode tables of the environment. *)
Definition isalnum (c : char) : bool :=
  if (c <? 128)%N then ascii_isalnum c else unicode_isalnum E c.

Definition lower_char (c : char) : pystr :=
  if (c <? 128)%N then [ascii_lower c] else unicode_lower E c.

Definition lower (s : pystr) : pystr := flat_map lower_char s.

(** One system call: it fails with [OSError] when the environment says
    so. *)
Definition sys (c : syscall) : M unit :=
  fun w =>
    match os_error E w c with
    | Some msg => (Raises (IOError msg), w)
    | None => (Returns tt, w)
    end.

(** [Path(p).mkdir(parents=True, exist_ok=True)] *)
Definition mkdir_parents (p : pystr) : M unit :=
  sys (SysMkdir p) ;; emit (EvMkdir p).

(** [requests.post(url, params=..., timeout=..., stream=True)] *)
Definition requests_post (rq : request) : M response :=
  fun w =>
    let o := http_post E w rq in
    let w' := record (EvPost rq o) w in
    match o with
    | PostTimeout msg => (Raises (Timeout msg), w')
    | PostFailed msg => (Raises (RequestException msg), w')
    | PostResponse r => (Returns r, w')
    end.

(** [response.raise_for_status()] of the requests library: statuses 400
    to 599 raise [HTTPError], every other status passes. *)
Definition raise_for_status (r : response) : M unit :=
  let line (kind : pystr) :=
    (str_int (status_code r) ++ kind ++ reason r ++ py " for url: " ++ url r)%list in
  if (400 <=? status_code r) && (status_code r <? 500) then
    raise (HTTPError {| he_msg := line (py " Client Error: "); he_response := r |})
  else if (500 <=? status_code r) && (status_code r <? 600) then
    raise (HTTPError {| he_msg := line (py " Server Error: "); he_response := r |})
  else ret tt.

(** [open(path, "wb")]: the file is created, or truncated. *)
Definition open_wb (path : pystr) : M unit :=
  sys (SysOpen path) ;;
  w <- get_world ;;
  set_files (<[path := []]> (files w)).

(** [f.write(chunk)] *)
Definition write (path : pystr) (chunk : bytes) : M unit :=
  sys (SysWrite path) ;;
  w <- get_world ;;
  set_files (alter (fun old => (old ++ chunk)%list) path (files w)).

(** [for chunk in response.iter_content(chunk_size=8192):
       if chunk: f.write(chunk)]
    followed by the error the stream ends in, if it does. *)
Fixpoint write_chunks (path : pystr) (chunks : list bytes)
    (err : option pystr) : M unit :=
  match chunks with
  | [] =>
      match err with
      | Some msg => raise (RequestException msg)
      | None => ret tt
      end
  | chunk :: rest =>
      match chunk with
      | [] => write_chunks path rest err
      | _ => write path chunk ;; write_chunks path rest err
      end
  end.

(** [Path(path).stat().st_size] *)
Definition stat_size (path : pystr) : M Z :=
  sys (SysStat path) ;;
  w <- get_world ;;
  match files w !! path with
  | Some content => ret (Z.of_nat (length content))
  | None => raise (IOError (py "No such file or directory"))
  end.

(** [int(time.time())] *)
Definition now : M Z := fun w => (Returns (time_time E w), w).

(** Lines 112-120: the file name used when [output_file] is [None]. *)
Definition default_output_file (text : pystr) (auto_timestamp : bool) : M pystr :=
  timestamp <- (if auto_timestamp then t <- now ;; ret (str_int t) else ret []) ;;
  let safe_text :=
    strip (List.filter (fun c => isalnum c || char_in c (py " _-")) (take 20 text)) in
  if truthy safe_text then
    ret (py "voice_" ++ timestamp ++ py "_" ++ safe_text ++ py ".wav")%list
  else
    ret (py "voice_" ++ timestamp ++ py ".wav")%list.

(** Lines 146-164: the body is written to the file, the size is read back,
    a small file is only warned about, and the path is returned. *)
Definition save_audio (output_file : pystr) (response : response) : M pystr :=
  (* 保存音频文件 *)
  open_wb output_file ;;
  write_chunks output_file (body response) (body_error response) ;;
  (* 验证文件 *)
  file_size <- stat_size output_file ;;
  (if file_size <? 1000 then emit (EvLog WarnIncomplete) else ret tt) ;;
  ret output_file.

(** Lines 166-182: the [except] clauses. *)
Definition on_error (e : exn) : M pystr :=
  match e with
  | Timeout _ => raise e
  | HTTPError h =>
      if status_code (he_response h) =? 500 then
        let error_msg := response_text (he_response h) in
        raise (ValueError (py "音频生成失败: " ++ error_msg)%list (Some h))
      else raise e
  | RequestException _ => raise e
  | IOError _ => raise e
  | ValueError _ _ => raise e
  end.

(** [VoiceDesignClient.generate_audio], lines 78-182.  The logger calls
    are left out except the warning of line 162. *)
Definition generate_audio (text language instruct : pystr)
    (output_file : option pystr) (auto_timestamp : bool) : M pystr :=
  (* 参数验证 *)
  if negb (truthy (strip text)) then
    raise (ValueError (py "文本内容不能为空") None)
  else if negb (truthy (strip instruct)) then
    raise (ValueError (py "语音指令不能为空") None)
  else
    (* 生成输出文件名 *)
    output_file <-
      match output_file with
      | None => default_output_file text auto_timestamp
      | Some f => ret f
      end ;;
    (* 确保输出目录存在 *)
    mkdir_parents (path_parent E output_file) ;;
    try_except
      ((* 发送请求 *)
       response <- requests_post {| req_text := text;
                                    req_language := language;
                                    req_instruct := instruct |} ;;
       raise_for_status response ;;
       save_audio output_file response)
      on_error.

(** One entry of [texts_and_settings]: a dict in which each of the four
    keys may be missing. *)
Record batch_item := {
  item_text : option pystr;
  item_language : option pystr;
  item_instruct : option pystr;
  item_filename : option pystr;
}.

(** [delay > 0] *)
Definition positive (delay : Q) : bool := negb (Qle_bool delay 0).

(** Lines 213-228: the parameters taken from an item, with their
    defaults, and the call made with them. *)
Definition generate_item (output_dir : pystr) (item : batch_item) : M pystr :=
  (* 提取参数 *)
  let text := default (py "") (item_text item) in
  let language := default (py "Chinese") (item_language item) in
  let instruct := default (py "温柔的女声") (item_instruct item) in
  let custom_filename := item_filename item in
  (* 生成音频 *)
  let output_file :=
    match custom_filename with
    | Some f => if truthy f then Some (path_join E output_dir f) else None
    | None => None
    end in
  generate_audio text language instruct output_file true.

(** Lines 219-235: the outcome of the call is stored under the first 30
    characters of the text, the path when it returned, the tagged message
    when it raised. *)
Definition process_item (output_dir : pystr) (item : batch_item)
    (results : gmap pystr pystr) : M (gmap pystr pystr) :=
  let text := default (py "") (item_text item) in
  try_except
    (file_path <- generate_item output_dir item ;;
     ret (<[(take 30 text ++ py "...")%list := file_path]> results))
    (fun e =>
       ret (<[(take 30 text ++ py "...")%list :=
                (py "ERROR: " ++ str_exn e)%list]> results)).

(** The loop of lines 210-240, for the items from number [i] on
    ([enumerate(texts_and_settings, 1)]); [n] is
    [len(texts_and_settings)]. *)
Fixpoint batch_loop (output_dir : pystr) (delay : Q) (n i : nat)
    (items : list batch_item) (results : gmap pystr pystr)
    : M (gmap pystr pystr) :=
  match items with
  | [] => ret results
  | item :: rest =>
      results <- process_item output_dir item results ;;
      (* 请求间延迟 *)
      (if (i <? n)%nat && positive delay then emit (EvSleep delay) else ret tt) ;;
      batch_loop output_dir delay n (S i) rest results
  end.

(** Lines 242-244: the values that do not start with ["ERROR:"]. *)
Definition success_count (results : gmap pystr pystr) : nat :=
  length (List.filter (fun v => negb (startswith (py "ERROR:") v))
                      (map snd (map_to_list results))).

(** [VoiceDesignClient.batch_generate], lines 184-249. *)
Definition batch_generate (texts_and_settings : list batch_item)
    (output_dir : pystr) (delay : Q) : M (gmap pystr pystr) :=
  mkdir_parents output_dir ;;
  results <- batch_loop output_dir delay (length texts_and_settings) 1
                        texts_and_settings ∅ ;;
  emit (EvLog (BatchDone (success_count results) (length texts_and_settings))) ;;
  ret results.

(** What a directory holds: regular files and subdirectories, by name. *)
#[warnings="-register-all"] Inductive node :=
| File (content : bytes)
| Dir (entries : list (pystr * node)).

(** [Path.is_file()] *)
Definition is_file (nd : node) : bool :=
  match nd with File _ => true | Dir _ => false end.

(** [Path(directory).glob("*")]: the entries directly in the directory,
    in the order the system lists them; nothing when the path is not a
    directory. *)
Definition glob_star (d : option node) : list (pystr * node) :=
  match d with
  | Some (Dir entries) => entries
  | _ => []
  end.

(** [Path.suffix] of pathlib: the name from its last dot on, unless that
    dot is the first or the last character. *)
Definition suffix (name : pystr) : pystr :=
  match rfind_dot name with
  | Some i => if (0 <? i)%nat && (i <? length name - 1)%nat then drop i name else []
  | None => []
  end.

Definition audio_extensions : list pystr :=
  [py ".wav"; py ".mp3"; py ".flac"; py ".ogg"; py ".m4a"].

(** The test of line 265 on one entry. *)
Definition is_audio (entry : pystr * node) : bool :=
  is_file (snd entry) && bool_decide (lower (suffix (fst entry)) ∈ audio_extensions).

(** [VoiceDesignClient.list_audio_files], lines 251-268; [d] is what the
    path [directory] holds. *)
Definition list_audio_files (directory : pystr) (d : option node) : list pystr :=
  let audio_files :=
    map (fun entry => path_join E directory (fst entry))
        (List.filter is_audio (glob_star d)) in
  merge_sort str_le audio_files.

(** *** The vocabulary of the specification *)

(** The file name as the specification words it: the first 20 characters
    filtered, and the timestamp alone when nothing is left. *)
Definition sanitized_prefix (text : pystr) : pystr :=
  List.filter (fun c => isalnum c || char_in c (py " _-")) (take 20 text).

Definition filename_as_specified (timestamp text : pystr) : pystr :=
  match sanitized_prefix text with
  | [] => (py "voice_" ++ timestamp ++ py ".wav")%list
  | prefix => (py "voice_" ++ timestamp ++ py "_" ++ prefix ++ py ".wav")%list
  end.

(** The same with the filtered prefix stripped of the white space at its
    ends. *)
Definition filename_stripped (timestamp text : pystr) : pystr :=
  match strip (sanitized_prefix text) with
  | [] => (py "voice_" ++ timestamp ++ py ".wav")%list
  | prefix => (py "voice_" ++ timestamp ++ py "_" ++ prefix ++ py ".wav")%list
  end.

(** The request failed: no response came, or one with an error status. *)
Definition error_status (r : response) : Prop :=
  400 <= status_code r < 600.

Definition request_failed (o : post_outcome) : Prop :=
  match o with
  | PostTimeout _ => True
  | PostFailed _ => True
  | PostResponse r => error_status r
  end.

(** The key under which an item's outcome is stored. *)
Definition item_key (item : batch_item) : pystr :=
  (take 30 (default [] (item_text item)) ++ py "...")%list.

(** An exception that is not an [HTTPError] passes the [except] clauses
    unchanged. *)
Definition not_http {A} (res : outcome A) : Prop :=
  match res with
  | Raises (HTTPError _) => False
  | _ => True
  end.

(** The request a call sends. *)
Definition request_of (text language instruct : pystr) : request :=
  {| req_text := text; req_language := language; req_instruct := instruct |}.

(** How a call ends once its request had the outcome [o], in the world
    [w2] that has the request on record: a failed request is raised, an
    error status is raised by [raise_for_status] and passed through the
    [except] clauses, any other response is saved. *)
Definition after_request (out : pystr) (o : post_outcome) (w2 : world)
    (res : outcome pystr) (w' : world) : Prop :=
  match o with
  | PostTimeout msg => res = Raises (Timeout msg) /\ w' = w2
  | PostFailed msg => res = Raises (RequestException msg) /\ w' = w2
  | PostResponse r =>
      (error_status r /\ w' = w2
       /\ exists h,
           raise_for_status r = raise (HTTPError h) /\ he_response h = r
           /\ res = if (status_code r =? 500)%Z
                    then Raises (ValueError
                                   (py "音频生成失败: " ++ response_text r)
                                   (Some h))
                    else Raises (HTTPError h))
      \/ (~ error_status r /\ save_audio out r w2 = (res, w'))
  end.

(** The file name [out] is the one a call with these arguments uses. *)
Definition destination (text : pystr) (output_file : option pystr)
    (auto_timestamp : bool) (w : world) (out : pystr) : Prop :=
  match output_file with
  | Some f => out = f
  | None => default_output_file text auto_timestamp w = (Returns out, w)
  end.

(** The size of the file at a path, when there is one. *)
Definition file_size (w : world) (path : pystr) : option nat :=
  length <$> files w !! path.

(** The value stored for the outcome of an item's call. *)
Definition outcome_value (res : outcome pystr) : pystr :=
  match res with
  | Returns file_path => file_path
  | Raises e => (py "ERROR: " ++ str_exn e)%list
  end.

(** A value is error-tagged. *)
Definition error_tagged (v : pystr) : Prop :=
  exists msg, v = (py "ERROR: " ++ msg)%list.

(** The extension of a file name, without its dot, and the allow-list. *)
Definition extension (name : pystr) : pystr := drop 1 (suffix name).

Definition allowed : list pystr :=
  [py "wav"; py "mp3"; py "flac"; py "ogg"; py "m4a"].

(** Two characters are the same ASCII letter up to case, or equal. *)
Definition same_letter (a b : char) : Prop :=
  a = b
  \/ ((0x41 <= a <= 0x5A)%N /\ b = (a + 0x20)%N)
  \/ ((0x41 <= b <= 0x5A)%N /\ a = (b + 0x20)%N).

Definition case_variant (s t : pystr) : Prop := Forall2 same_letter s t.

End Client.
End Client.

(** ** A concrete environment

    Used to run the client on explicit inputs: ASCII text only (no code
    point from 128 on is alphanumeric or changed by [lower]), paths with
    [/] as separator, a clock that stands still, a service given as a
    function of the request, and an operating system that never fails. *)

Module Concrete.

Fixpoint path_split (p acc : pystr) (dir : option pystr) : option pystr * pystr :=
  match p with
  | [] => (dir, acc)
  | c :: p' =>
      if (c =? 0x2F)%N
      then path_split p' [] (Some (match dir with
                                   | Some d => d ++ 0x2F%N :: acc
                                   | None => acc
                                   end))
      else path_split p' (acc ++ [c]) dir
  end.

Definition parent (p : pystr) : pystr :=
  match fst (path_split p [] None) with
  | Some d => d
  | None => py "."
  end.

Definition join (d n : pystr) : pystr :=
  if bool_decide (d = py ".") then n else d ++ py "/" ++ n.

Definition env (clock : Z) (service : request -> post_outcome) : Env :=
  {| unicode_isalnum := fun _ => false;
     unicode_lower := fun c => [c];
     path_parent := parent;
     path_join := join;
     time_time := fun _ => clock;
     http_post := fun _ rq => service rq;
     os_error := fun _ _ => None |}.

Definition empty_world : world := {| files := ∅; trace := [] |}.

(** A response with the given status, text and body chunks. *)
Definition reply (status : Z) (txt : pystr) (chunks : list bytes) : response :=
  {| status_code := status; reason := []; url := py "http://localhost:8867/generate_audio";
     response_text := txt; body := chunks; body_error := None |}.

End Concrete.

(** ** server.py *)

Module Server.

(** The exceptions the endpoint sees: FastAPI's [HTTPException], and any
    other [Exception] with the message [str(e)] gives. *)
Inductive server_exn :=
| HTTPException (status_code : Z) (detail : pystr)
| Exception (msg : pystr).

(** [str(e)]; for an [HTTPException] it is ["<status_code>: <detail>"]. *)
Definition str_exn (e : server_exn) : pystr :=
  match e with
  | HTTPException status_code detail => str_int status_code ++ py ": " ++ detail
  | Exception msg => msg
  end.

Inductive result (A : Type) :=
| Ok (a : A)
| Raised (e : server_exn).
Arguments Ok {A} a.
Arguments Raised {A} e.

(** What the endpoint hands to the framework on success. *)
Record StreamingResponse := {
  content : bytes;
  media_type : pystr;
  headers : list (pystr * pystr);
}.

(** The HTTP response the framework sends. *)
Inductive http_body :=
| Binary (b : bytes)
| JsonDetail (detail : pystr)          (* the JSON object {"detail": detail} *)
| PlainText (t : pystr).

Record http_response := {
  status : Z;
  response_body : http_body;
}.

Section Endpoint.

(** One array of samples, as the model returns it. *)
Variable samples : Type.

(** [model.generate_voice_design(text=..., language=..., instruct=...)]:
    the list [wavs] and the sample rate [sr], or an exception. *)
Variable model : option (pystr -> pystr -> pystr -> result (list samples * Z)).

(** [sf.write(buffer, data, sr, format="WAV")]: the bytes left in the
    buffer, or an exception. *)
Variable sf_write : samples -> Z -> result bytes.

(** The [try] block of lines 75-100. *)
Definition generate_audio_try (text language instruct : pystr)
    : result StreamingResponse :=
  match model with
  | None => Raised (HTTPException 500 (py "模型未加载"))
  | Some generate_voice_design =>
      (* 调用模型生成音频 *)
      match generate_voice_design text language instruct with
      | Raised e => Raised e
      | Ok (wavs, sr) =>
          match wavs with
          | [] => Raised (Exception (py "list index out of range"))
          | wav0 :: _ =>
              (* 将音频数据转换为WAV格式的字节流 *)
              match sf_write wav0 sr with
              | Raised e => Raised e
              | Ok audio_buffer =>
                  (* 返回音频流 *)
                  Ok {| content := audio_buffer;
                        media_type := py "audio/wav";
                        headers := [(py "Content-Disposition",
                                     py "attachment; filename=generated_audio.wav")] |}
              end
          end
      end
  end.

(** The endpoint function [generate_audio], lines 62-104. *)
Definition generate_audio (text language instruct : pystr)
    : result StreamingResponse :=
  match generate_audio_try text language instruct with
  | Ok r => Ok r
  | Raised e =>
      Raised (HTTPException 500 (py "音频生成失败: " ++ str_exn e))
  end.

(** What FastAPI sends for the endpoint's outcome: the stream with status
    200, an [HTTPException] as its status with the detail in a JSON body,
    anything else as a plain 500. *)
Definition respond (r : result StreamingResponse) : http_response :=
  match r with
  | Ok s => {| status := 200; response_body := Binary (content s) |}
  | Raised (HTTPException status_code detail) =>
      {| status := status_code; response_body := JsonDetail detail |}
  | Raised (Exception _) =>
      {| status := 500; response_body := PlainText (py "Internal Server Error") |}
  end.

(** [POST /generate_audio] *)
Definition post_generate_audio (text language instruct : pystr) : http_response :=
  respond (generate_audio text language instruct).


End Endpoint.
End Server.

(** ** The rest of client.py and server.py *)

Import Client.

(** *** Reading a trace *)

Definition is_post (ev : event) : bool :=
  match ev with EvPost _ _ => true | _ => false end.

Definition is_sleep (ev : event) : bool :=
  match ev with EvSleep _ => true | _ => false end.

(** The requests, and the pauses, among some effects. *)
Definition posts (evs : list event) : nat := length (List.filter is_post evs).

Definition sleeps (evs : list event) : nat := length (List.filter is_sleep evs).

(** What [save_audio] raises is an [OSError] or a transport error. *)
Definition io_or_transport {A} (res : outcome A) : Prop :=
  match res with
  | Raises (IOError _) => True
  | Raises (RequestException _) => True
  | Raises _ => False
  | Returns _ => True
  end.

(** A character a default file name can hold. *)
Definition name_char (E : Env) (c : char) : Prop :=
  isalnum E c = true \/ In c (py " _-.").

(** The operating system never fails. *)
Definition no_faults (E : Env) : Prop := forall w c, os_error E w c = None.

(** An item passes the validation of [generate_audio]: its text and its
    instruct, defaults applied, are not blank. *)
Definition item_valid (item : batch_item) : bool :=
  truthy (strip (default (py "") (item_text item)))
  && truthy (strip (default (py "温柔的女声") (item_instruct item))).

(** *** [check_server_status] *)

(** Outcome of [requests.get]. *)
Inductive get_outcome :=
| GetTimeout (msg : pystr)
| GetFailed (msg : pystr)
| GetResponse (r : response).

Section Status.

Variable E : Env.

(** The value [response.json()] returns. *)
Variable json : Type.

(** [requests.get(f"{base_url}/", timeout=10, verify=...)] *)
Variable http_get : world -> get_outcome.

(** [response.json()]: the parsed body, or the message of the decoding
    error, which is a [ValueError]. *)
Variable response_json : response -> json + pystr.

Local Open Scope py_scope.

Definition requests_get : M response :=
  fun w =>
    match http_get w with
    | GetTimeout msg => (Raises (Timeout msg), w)
    | GetFailed msg => (Raises (RequestException msg), w)
    | GetResponse r => (Returns r, w)
    end.

(** [VoiceDesignClient.check_server_status], lines 49-76; both [except]
    clauses log and re-raise. *)
Definition check_server_status : M json :=
  try_except
    (response <- requests_get ;;
     raise_for_status response ;;
     match response_json response with
     | inl data => ret data
     | inr msg => raise (ValueError msg None)
     end)
    (fun e =>
       match e with
       | Timeout _ => raise e
       | HTTPError _ => raise e
       | RequestException _ => raise e
       | ValueError _ _ => raise e
       | IOError _ => raise e
       end).

End Status.

(** *** [quick_generate] and [main] *)

(** The parsed command line of lines 300-313. *)
Record arguments := {
  args_text : pystr;
  args_instruct : pystr;
  args_language : pystr;
  args_output : option pystr;
  args_host : pystr;
  args_port : Z;
  args_list_audio : option pystr;
}.

Section Cli.

(** The environment of the client made for a host and a port. *)
Variable client_env : pystr -> Z -> Env.

(** What a path of the file system holds. *)
Variable path_holds : pystr -> option node.

Local Open Scope py_scope.

(** [quick_generate], lines 272-293. *)
Definition quick_generate (text instruct : pystr) (output_file : option pystr)
    (host : pystr) (port : Z) : M pystr :=
  generate_audio (client_env host port) text (py "Chinese") instruct output_file true.

(** [main], lines 296-343: the lines printed and the exit code. *)
Definition main (args : arguments) : M (list pystr * Z) :=
  let E := client_env (args_host args) (args_port args) in
  let generate :=
    (* 生成音频 *)
    output_file <- generate_audio E (args_text args) (args_language args)
                     (args_instruct args) (args_output args) true ;;
    ret ([py "✅ 音频生成成功: " ++ output_file], 0%Z) in
  try_except
    (match args_list_audio args with
     | Some dir =>
         if truthy dir then
           (* 列出音频文件 *)
           let audio_files := list_audio_files E dir (path_holds dir) in
           ret ((py "📁 " ++ dir ++ py " 中的音频文件:")
                :: map (fun audio_file => py "  🎵 " ++ audio_file) audio_files,
                0%Z)
         else generate
     | None => generate
     end)
    (fun e => ret ([py "❌ 错误: " ++ str_exn e], 1%Z)).

End Cli.

(** *** Starting the service, and the service on the wire *)

Module Service.

Section Startup.

Variable samples : Type.

(** The loaded model: its [generate_voice_design]. *)
Definition Model : Type :=
  pystr -> pystr -> pystr -> Server.result (list samples * Z).

(** [init_model], lines 19-33, on the global [model]: what
    [Qwen3TTSModel.from_pretrained] gives is stored, an exception it raises
    is raised again and leaves the global as it is. *)
Definition init_model (from_pretrained : Server.result Model) (model : option Model)
    : Server.result unit * option Model :=
  match from_pretrained with
  | Server.Ok m => (Server.Ok tt, Some m)
  | Server.Raised e => (Server.Raised e, model)
  end.

(** [startup_event], lines 42-44. *)
Definition startup_event (from_pretrained : Server.result Model)
    (model : option Model) : Server.result unit * option Model :=
  init_model from_pretrained model.

End Startup.

(** The liveness payload of [root], lines 56-59. *)
Definition root : list (pystr * pystr) :=
  [(py "message", py "音色设计API服务运行中"); (py "version", py "1.0.0")].

(** How the framework writes a string in a JSON body ([json.dumps] with
    [ensure_ascii=False]): the quote, the backslash and the characters
    below U+0020 are escaped, everything else is kept. *)
Definition hex_digit (n : N) : char :=
  (if n <? 10 then 0x30 + n else 0x61 + (n - 10))%N.

Definition json_escape_char (c : char) : pystr :=
  (if c =? 0x22 then [0x5C; 0x22]
   else if c =? 0x5C then [0x5C; 0x5C]
   else if c =? 0x08 then [0x5C; 0x62]
   else if c =? 0x0C then [0x5C; 0x66]
   else if c =? 0x0A then [0x5C; 0x6E]
   else if c =? 0x0D then [0x5C; 0x72]
   else if c =? 0x09 then [0x5C; 0x74]
   else if c <? 0x20 then [0x5C; 0x75; 0x30; 0x30; hex_digit (c / 16); hex_digit (c mod 16)]
   else [c])%N.

Definition json_string (s : pystr) : pystr :=
  [0x22%N] ++ flat_map json_escape_char s ++ [0x22%N].

(** The body [{"detail":"..."}] of an error answer. *)
Definition json_detail (detail : pystr) : pystr :=
  py "{" ++ json_string (py "detail") ++ py ":" ++ json_string detail ++ py "}".

(** A character that is written as it is. *)
Definition json_plain (c : char) : Prop :=
  (0x20 <= c)%N /\ c <> 0x22%N /\ c <> 0x5C%N.

(** The client receives the answer [answer] as the response [r]: the
    status is the one sent, the stream is whole, and the body is the one
    sent, in whatever chunks. *)
Definition delivered (answer : Server.http_response) (r : response) : Prop :=
  status_code r = Server.status answer
  /\ body_error r = None
  /\ match Server.response_body answer with
     | Server.Binary b => concat (body r) = b
     | Server.JsonDetail detail => response_text r = json_detail detail
     | Server.PlainText t => response_text r = t
     end.

(** The service behind the client is the endpoint of server.py with this
    model and this encoder. *)
Definition served_by (E : Env) (samples : Type) (model : option (Model samples))
    (sf_write : samples -> Z -> Server.result bytes) : Prop :=
  forall w rq,
  exists r,
    http_post E w rq = PostResponse r
    /\ delivered (Server.post_generate_audio samples model sf_write
                    (req_text rq) (req_language rq) (req_instruct rq)) r.

End Service.

(** * Properties *)

Import Client.

(** ** Strings *)

Example py_text_empty :
  py "文本内容不能为空"
  = [0x6587; 0x672C; 0x5185; 0x5BB9; 0x4E0D; 0x80FD; 0x4E3A; 0x7A7A]%N.
Proof. reflexivity. Qed.

Example strip_example : strip (py "  a b ") = py "a b".
Proof. reflexivity. Qed.

Example str_int_example :
  str_int 1700000000 = py "1700000000" /\ str_int (-5) = py "-5".
Proof. split; reflexivity. Qed.

Lemma lstrip_all_space (s : pystr) :
  forallb isspace s = true -> lstrip s = [].
Proof.
  induction s as [|c s IH]; simpl; [reflexivity|].
  intros H. apply andb_prop in H as [Hc Hs]. rewrite Hc. auto.
Qed.

Lemma strip_all_space (s : pystr) :
  forallb isspace s = true -> strip s = [].
Proof.
  intros H. unfold strip, rstrip. rewrite (lstrip_all_space s H). reflexivity.
Qed.

(** ** Validation (client.py, lines 104-109) *)

(** C3: with an empty [text] or an empty [instruct], [generate_audio]
    raises a [ValueError] and leaves the world as it found it: no request
    has been sent, no directory made, no file touched. *)
Theorem empty_input_rejected_before_any_request :
  forall E text language instruct output_file auto_timestamp w,
    text = [] \/ instruct = [] ->
    exists msg,
      generate_audio E text language instruct output_file auto_timestamp w
      = (Raises (ValueError msg None), w).
Proof.
  intros E text language instruct output_file auto_timestamp w H.
  unfold generate_audio.
  destruct (truthy (strip text)) eqn:Ht; simpl.
  - destruct H as [-> | ->]; [discriminate Ht|].
    eexists; reflexivity.
  - eexists; reflexivity.
Qed.

Lemma empty_input_rejected_witness :
  exists msg,
    generate_audio (Concrete.env 0 (fun _ => PostFailed [])) [] (py "Chinese")
                   (py "x") None true Concrete.empty_world
    = (Raises (ValueError msg None), Concrete.empty_world).
Proof.
  apply (empty_input_rejected_before_any_request
           (Concrete.env 0 (fun _ => PostFailed [])) [] (py "Chinese") (py "x")
           None true Concrete.empty_world).
  left; reflexivity.
Defined.

(** C9: a [text] or an [instruct] made of white space only is treated as
    the empty string is: the call has the outcome it has on the empty
    string, a [ValueError] raised with the world untouched. *)
Theorem whitespace_only_rejected_like_empty :
  forall E text language instruct output_file auto_timestamp w,
    (text <> [] -> forallb isspace text = true ->
     generate_audio E text language instruct output_file auto_timestamp w
     = generate_audio E [] language instruct output_file auto_timestamp w
     /\ generate_audio E text language instruct output_file auto_timestamp w
        = (Raises (ValueError (py "文本内容不能为空") None), w))
    /\ (instruct <> [] -> forallb isspace instruct = true ->
        generate_audio E text language instruct output_file auto_timestamp w
        = generate_audio E text language [] output_file auto_timestamp w
        /\ exists msg,
            generate_audio E text language instruct output_file auto_timestamp w
            = (Raises (ValueError msg None), w)).
Proof.
  intros E text language instruct output_file auto_timestamp w. split.
  - intros _ Hws. unfold generate_audio.
    rewrite (strip_all_space text Hws). simpl. split; reflexivity.
  - intros _ Hws. unfold generate_audio.
    rewrite (strip_all_space instruct Hws). simpl.
    destruct (truthy (strip text)); simpl; split; try reflexivity;
      eexists; reflexivity.
Qed.

Lemma whitespace_only_rejected_witness :
  (generate_audio (Concrete.env 0 (fun _ => PostFailed [])) (py " ") (py "Chinese")
                  (py "x") None true Concrete.empty_world
   = (Raises (ValueError (py "文本内容不能为空") None), Concrete.empty_world))
  /\ (generate_audio (Concrete.env 0 (fun _ => PostFailed [])) (py "hello")
                     (py "Chinese") (py "   ") None true Concrete.empty_world
      = generate_audio (Concrete.env 0 (fun _ => PostFailed [])) (py "hello")
                       (py "Chinese") [] None true Concrete.empty_world).
Proof.
  split.
  - destruct (whitespace_only_rejected_like_empty
                (Concrete.env 0 (fun _ => PostFailed [])) (py " ") (py "Chinese")
                (py "x") None true Concrete.empty_world) as [Htext _].
    apply Htext; [discriminate | reflexivity].
  - destruct (whitespace_only_rejected_like_empty
                (Concrete.env 0 (fun _ => PostFailed [])) (py "hello") (py "Chinese")
                (py "   ") None true Concrete.empty_world) as [_ Hinstruct].
    apply Hinstruct; [discriminate | reflexivity].
Defined.

(** ** How a call of [generate_audio] runs *)

Section Run.

Variable E : Env.

Lemma app_tail_nil {A} (l t : list A) : l ++ t = t -> l = [].
Proof.
  intros H. apply (f_equal (@length A)) in H. rewrite length_app in H.
  destruct l; [reflexivity | simpl in H; lia].
Qed.

Lemma sys_inv c w res w' :
  sys E c w = (res, w') ->
  w' = w
  /\ ((res = Returns tt /\ os_error E w c = None)
      \/ exists msg, res = Raises (IOError msg) /\ os_error E w c = Some msg).
Proof.
  unfold sys. destruct (os_error E w c) as [msg|]; intros [= <- <-]; split; eauto.
Qed.

Lemma on_error_not_http e w :
  not_http (@Raises pystr e) -> on_error e w = (Raises e, w).
Proof.
  intros H. destruct e; try reflexivity. destruct H.
Qed.

Lemma write_inv path chunk w res w' :
  write E path chunk w = (res, w') ->
  not_http res
  /\ trace w' = trace w
  /\ ((exists msg, res = Raises (IOError msg) /\ w' = w)
      \/ (res = Returns tt
          /\ files w' = alter (fun old => old ++ chunk) path (files w))).
Proof.
  unfold write, bind, get_world, set_files.
  destruct (sys E (SysWrite path) w) as [r w1] eqn:Hs.
  apply sys_inv in Hs as [-> [[-> _] | [msg [-> _]]]]; intros [= <- <-];
    (split; [exact I|]); split; try reflexivity; eauto.
Qed.

Lemma write_chunks_inv path chunks err :
  forall w res w',
    write_chunks E path chunks err w = (res, w') ->
    not_http res
    /\ trace w' = trace w
    /\ (forall q, q <> path -> files w' !! q = files w !! q)
    /\ (res = Returns tt ->
        err = None
        /\ files w' !! path
           = (fun old => old ++ concat chunks) <$> files w !! path).
Proof.
  induction chunks as [|chunk rest IH]; intros w res w'; simpl.
  - destruct err as [msg|]; unfold raise, ret; intros [= <- <-];
      (split; [exact I|]); split; try reflexivity;
      (split; [reflexivity|]); intros Hres; try discriminate.
    split; [reflexivity|]. destruct (files w !! path); simpl; [|reflexivity].
    rewrite app_nil_r. reflexivity.
  - destruct chunk as [|b chunk]; [apply IH|].
    unfold bind at 1.
    destruct (write E path (b :: chunk) w) as [r w1] eqn:Hw.
    apply write_inv in Hw as (Hnh & Htr & [[msg [-> ->]] | [-> Hfiles]]).
    + intros [= <- <-]. split; [exact Hnh|]. split; [reflexivity|].
      split; [reflexivity|]. discriminate.
    + intros Hrest. apply IH in Hrest as (Hnh' & Htr' & Hother & Hdone).
      split; [exact Hnh'|]. split; [congruence|]. split.
      * intros q Hq. rewrite (Hother q Hq), Hfiles.
        apply lookup_alter_ne. congruence.
      * intros Hres. destruct (Hdone Hres) as [-> Hlk]. split; [reflexivity|].
        rewrite Hlk, Hfiles, lookup_alter_eq, <- option_fmap_compose.
        apply option_fmap_ext. intros old. simpl.
        rewrite <- app_assoc. reflexivity.
Qed.

Lemma save_audio_inv out r w res w' :
  save_audio E out r w = (res, w') ->
  not_http res
  /\ (trace w' = trace w \/ trace w' = EvLog WarnIncomplete :: trace w)
  /\ (forall q, q <> out -> files w' !! q = files w !! q)
  /\ (forall p, res = Returns p ->
      p = out /\ body_error r = None
      /\ files w' !! out = Some (concat (body r))).
Proof.
  unfold save_audio, open_wb.
  unfold bind at 1. unfold bind at 1.
  destruct (sys E (SysOpen out) w) as [r0 w0] eqn:Hs.
  apply sys_inv in Hs as [-> [[-> _] | [msg [-> _]]]].
  2:{ intros [= <- <-]. split; [exact I|]. split; [by left|].
      split; [reflexivity|]. discriminate. }
  unfold get_world, set_files, bind at 1.
  set (w1 := {| files := <[out:=[]]> (files w); trace := trace w |}).
  unfold bind at 1.
  destruct (write_chunks E out (body r) (body_error r) w1) as [r2 w2] eqn:Hwc.
  apply write_chunks_inv in Hwc as (Hnh & Htr & Hother & Hdone).
  assert (Hother' : forall q, q <> out -> files w2 !! q = files w !! q).
  { intros q Hq. rewrite (Hother q Hq). simpl. apply lookup_insert_ne. congruence. }
  destruct r2 as [[]|e].
  2:{ intros [= <- <-]. split; [exact Hnh|]. split; [by left|].
      split; [exact Hother'|]. discriminate. }
  destruct (Hdone eq_refl) as [Herr Hlk]. simpl in Hlk.
  rewrite lookup_insert_eq in Hlk. simpl in Hlk.
  unfold stat_size. unfold bind at 1. unfold bind at 1.
  destruct (sys E (SysStat out) w2) as [r3 w3] eqn:Hs.
  apply sys_inv in Hs as [-> [[-> _] | [msg [-> _]]]].
  2:{ intros [= <- <-]. split; [exact I|]. split; [by left|].
      split; [exact Hother'|]. discriminate. }
  unfold get_world, bind at 1. rewrite Hlk. unfold ret at 1.
  unfold bind at 1.
  destruct (Z.of_nat (length (concat (body r))) <? 1000)%Z;
    unfold emit, ret, bind; intros [= <- <-];
    (split; [exact I|]); simpl;
    (split; [rewrite Htr; simpl; auto|]);
    (split; [exact Hother'|]);
    intros p [= <-]; auto.
Qed.

Lemma raise_for_status_cases r :
  (error_status r
   /\ exists h, raise_for_status r = raise (HTTPError h) /\ he_response h = r)
  \/ (~ error_status r /\ raise_for_status r = ret tt).
Proof.
  unfold raise_for_status, error_status.
  destruct (400 <=? status_code r)%Z eqn:H4; simpl.
  - destruct (status_code r <? 500)%Z eqn:H5; simpl.
    + left. split; [lia|]. eexists; split; reflexivity.
    + destruct (500 <=? status_code r)%Z eqn:H5'; [|lia]. simpl.
      destruct (status_code r <? 600)%Z eqn:H6.
      * left. split; [lia|]. eexists; split; reflexivity.
      * right. split; [lia | reflexivity].
  - destruct (500 <=? status_code r)%Z eqn:H5'; [lia|]. simpl.
    right. split; [lia | reflexivity].
Qed.

Lemma default_output_file_returns text auto_timestamp w :
  exists out, default_output_file E text auto_timestamp w = (Returns out, w).
Proof.
  unfold default_output_file, bind, now, ret.
  destruct auto_timestamp; simpl;
    match goal with |- context [truthy ?s] => destruct (truthy s) end;
    eexists; reflexivity.
Qed.

(** Either the call stops before the request, with the world untouched,
    or it sends exactly one request and goes on as the outcome of that
    request says. *)
Lemma generate_audio_run text language instruct output_file auto_timestamp w res w' :
  generate_audio E text language instruct output_file auto_timestamp w = (res, w') ->
  (w' = w /\ not_http res /\ exists e, res = Raises e)
  \/ exists out,
      destination E text output_file auto_timestamp w out
      /\ let w1 := record (EvMkdir (path_parent E out)) w in
         let rq := request_of text language instruct in
         let o := http_post E w1 rq in
         after_request E out o (record (EvPost rq o) w1) res w'.
Proof.
  unfold generate_audio.
  destruct (truthy (strip text)); simpl.
  2:{ intros [= <- <-]. left. split; [reflexivity|]. split; [exact I|]. eauto. }
  destruct (truthy (strip instruct)); simpl.
  2:{ intros [= <- <-]. left. split; [reflexivity|]. split; [exact I|]. eauto. }
  unfold bind at 1.
  assert (Hout : exists out,
             match output_file with
             | Some f => ret f
             | None => default_output_file E text auto_timestamp
             end w = (Returns out, w)
             /\ match output_file with
                | Some f => out = f
                | None => default_output_file E text auto_timestamp w = (Returns out, w)
                end).
  { destruct output_file as [f|].
    - exists f. split; reflexivity.
    - destruct (default_output_file_returns text auto_timestamp w) as [out Hd].
      exists out. split; exact Hd. }
  destruct Hout as (out & -> & Hout).
  unfold mkdir_parents. unfold bind at 1. unfold bind at 1.
  destruct (sys E (SysMkdir (path_parent E out)) w) as [r0 w0] eqn:Hs.
  apply sys_inv in Hs as [-> [[-> _] | [msg [-> _]]]].
  2:{ intros [= <- <-]. left. split; [reflexivity|]. split; [exact I|]. eauto. }
  unfold emit. intros Hrun. right. exists out. split; [exact Hout|].
  cbv zeta. unfold after_request. fold (request_of text language instruct) in Hrun.
  set (w1 := record (EvMkdir (path_parent E out)) w) in *.
  set (rq := request_of text language instruct) in *.
  unfold try_except, bind, requests_post in Hrun.
  destruct (http_post E w1 rq) as [msg|msg|r].
  - simpl in Hrun. injection Hrun as <- <-. split; reflexivity.
  - simpl in Hrun. injection Hrun as <- <-. split; reflexivity.
  - set (w2 := record (EvPost rq (PostResponse r)) w1) in *.
    destruct (raise_for_status_cases r) as [[Herr (h & Hr & Hh)] | [Hok Hr]];
      rewrite Hr in Hrun.
    + left. split; [exact Herr|]. unfold raise in Hrun. simpl in Hrun.
      rewrite Hh in Hrun.
      destruct (status_code r =? 500)%Z eqn:H500; unfold raise in Hrun;
        injection Hrun as <- <-; (split; [reflexivity|]);
        exists h; auto.
    + right. split; [exact Hok|]. unfold ret in Hrun.
      destruct (save_audio E out r w2) as [r3 w3] eqn:Hsave.
      destruct (save_audio_inv _ _ _ _ _ Hsave) as (Hnh & _).
      destruct r3 as [p|e]; [exact Hrun|].
      rewrite on_error_not_http in Hrun by exact Hnh. exact Hrun.
Qed.

(** The requests on record after a call: at most the one the call sent. *)
Lemma generate_audio_request text language instruct output_file auto_timestamp
    w res w' evs rq o :
  generate_audio E text language instruct output_file auto_timestamp w = (res, w') ->
  trace w' = evs ++ trace w ->
  In (EvPost rq o) evs ->
  exists out,
    destination E text output_file auto_timestamp w out
    /\ rq = request_of text language instruct
    /\ o = http_post E (record (EvMkdir (path_parent E out)) w) rq
    /\ after_request E out o
         (record (EvPost rq o) (record (EvMkdir (path_parent E out)) w)) res w'.
Proof.
  intros Hrun Htr Hin.
  destruct (generate_audio_run _ _ _ _ _ _ _ _ Hrun)
    as [(-> & _ & _) | (out & Hout & Hafter)].
  { symmetry in Htr. apply app_tail_nil in Htr. subst evs. destruct Hin. }
  cbv zeta in Hafter. exists out. split; [exact Hout|].
  set (w1 := record (EvMkdir (path_parent E out)) w) in *.
  set (rq0 := request_of text language instruct) in *.
  set (o0 := http_post E w1 rq0) in *.
  assert (Hev : exists logs,
             trace w' = logs ++ [EvPost rq0 o0; EvMkdir (path_parent E out)] ++ trace w
             /\ (logs = [] \/ logs = [EvLog WarnIncomplete])).
  { unfold after_request in Hafter.
    destruct o0 as [msg|msg|r].
    - destruct Hafter as [_ ->]. exists []. split; [reflexivity | by left].
    - destruct Hafter as [_ ->]. exists []. split; [reflexivity | by left].
    - destruct Hafter as [(_ & -> & _) | (_ & Hsave)].
      + exists []. split; [reflexivity | by left].
      + apply save_audio_inv in Hsave as (_ & [Ht | Ht] & _); rewrite Ht.
        * exists []. split; [reflexivity | by left].
        * exists [EvLog WarnIncomplete]. split; [reflexivity | by right]. }
  destruct Hev as (logs & Htr' & Hlogs).
  rewrite Htr, app_assoc in Htr'. apply app_inv_tail in Htr'. subst evs.
  assert (Heq : EvPost rq o = EvPost rq0 o0).
  { destruct Hlogs as [-> | ->]; simpl in Hin;
      repeat (destruct Hin as [Hin | Hin]; try discriminate Hin; try (symmetry; exact Hin));
      destruct Hin. }
  injection Heq as -> ->. auto.
Qed.

End Run.

(** ** Failed requests (client.py, lines 135-150 and 166-179) *)

(** C6: when the request a call sent failed, by a timeout, a connection
    error or an error status of the service, the call raises and the files
    are what they were before the call: no output file has been created. *)
Theorem failed_request_creates_no_file :
  forall E text language instruct output_file auto_timestamp w res w' evs rq o,
    generate_audio E text language instruct output_file auto_timestamp w = (res, w') ->
    trace w' = evs ++ trace w ->
    In (EvPost rq o) evs ->
    request_failed o ->
    (exists e, res = Raises e) /\ files w' = files w.
Proof.
  intros E text language instruct output_file auto_timestamp w res w' evs rq o
         Hrun Htr Hin Hfail.
  destruct (generate_audio_request E _ _ _ _ _ _ _ _ _ _ _ Hrun Htr Hin)
    as (out & _ & _ & _ & Hafter).
  unfold after_request in Hafter. destruct o as [msg|msg|r].
  - destruct Hafter as [-> ->]. eauto.
  - destruct Hafter as [-> ->]. eauto.
  - simpl in Hfail.
    destruct Hafter as [(_ & -> & h & _ & _ & ->) | (Hok & _)]; [|contradiction].
    split; [|reflexivity]. destruct (status_code r =? 500)%Z; eauto.
Qed.

Lemma failed_request_witness :
  let E := Concrete.env 0 (fun _ => PostTimeout (py "timed out")) in
  let run := generate_audio E (py "hello") (py "Chinese") (py "x")
                            (Some (py "out/hello.wav")) true Concrete.empty_world in
  (exists e, fst run = Raises e) /\ files (snd run) = files Concrete.empty_world.
Proof.
  intros E run.
  apply (failed_request_creates_no_file E (py "hello") (py "Chinese") (py "x")
           (Some (py "out/hello.wav")) true Concrete.empty_world (fst run) (snd run)
           [EvPost (request_of (py "hello") (py "Chinese") (py "x"))
                   (PostTimeout (py "timed out"));
            EvMkdir (py "out")]
           (request_of (py "hello") (py "Chinese") (py "x"))
           (PostTimeout (py "timed out"))).
  - reflexivity.
  - reflexivity.
  - left; reflexivity.
  - exact I.
Defined.

(** A stream that breaks after the status was accepted is another matter:
    the file is open by then, and what arrived stays in it. *)
Example broken_stream_leaves_partial_file :
  let r := {| status_code := 200; reason := py "OK"; url := [];
              response_text := []; body := [[Byte.x52; Byte.x49]];
              body_error := Some (py "Connection broken") |} in
  let run := generate_audio (Concrete.env 0 (fun _ => PostResponse r)) (py "hello")
               (py "Chinese") (py "x") (Some (py "hello.wav")) true
               Concrete.empty_world in
  fst run = Raises (RequestException (py "Connection broken"))
  /\ files (snd run) !! py "hello.wav" = Some [Byte.x52; Byte.x49].
Proof. split; reflexivity. Qed.

(** C4, as the code has it: a response with status 500 and the text
    ["model error: X"] makes the call raise a [ValueError] whose message
    contains [X]; a response with any other status from 400 to 599 makes
    it raise the very [HTTPError] that [raise_for_status] raised. *)
Theorem error_status_translated_or_reraised :
  forall E text language instruct output_file auto_timestamp w res w' evs rq r,
    generate_audio E text language instruct output_file auto_timestamp w = (res, w') ->
    trace w' = evs ++ trace w ->
    In (EvPost rq (PostResponse r)) evs ->
    (forall X, status_code r = 500%Z ->
               response_text r = py "model error: " ++ X ->
               exists msg cause,
                 res = Raises (ValueError msg cause) /\ contains msg X)
    /\ (error_status r -> status_code r <> 500%Z ->
        exists h,
          res = Raises (HTTPError h) /\ he_response h = r
          /\ raise_for_status r = raise (HTTPError h)).
Proof.
  intros E text language instruct output_file auto_timestamp w res w' evs rq r
         Hrun Htr Hin.
  destruct (generate_audio_request E _ _ _ _ _ _ _ _ _ _ _ Hrun Htr Hin)
    as (out & _ & _ & _ & Hafter).
  unfold after_request in Hafter.
  destruct Hafter as [(_ & _ & h & Hr & Hh & Hres) | (Hok & _)].
  - split.
    + intros X H500 Htext. rewrite H500 in Hres. simpl in Hres.
      eexists _, _. split; [exact Hres|].
      rewrite Htext. exists (py "音频生成失败: " ++ py "model error: "), [].
      rewrite app_nil_r, <- app_assoc. reflexivity.
    + intros _ Hne. apply Z.eqb_neq in Hne. rewrite Hne in Hres. eauto.
  - split.
    + intros X H500 _. exfalso. apply Hok. unfold error_status. lia.
    + intros Herr. contradiction.
Qed.

Lemma error_status_witness :
  let r404 := Concrete.reply 404 (py "Not Found") [] in
  let r500 := Concrete.reply 500 (py "model error: out of memory") [] in
  (exists msg cause,
     fst (generate_audio (Concrete.env 0 (fun _ => PostResponse r500)) (py "hello")
            (py "Chinese") (py "x") (Some (py "hello.wav")) true Concrete.empty_world)
     = Raises (ValueError msg cause) /\ contains msg (py "out of memory"))
  /\ (exists h,
        fst (generate_audio (Concrete.env 0 (fun _ => PostResponse r404)) (py "hello")
               (py "Chinese") (py "x") (Some (py "hello.wav")) true Concrete.empty_world)
        = Raises (HTTPError h) /\ he_response h = r404
        /\ raise_for_status r404 = raise (HTTPError h)).
Proof.
  intros r404 r500. split.
  - set (E := Concrete.env 0 (fun _ => PostResponse r500)).
    set (run := generate_audio E (py "hello") (py "Chinese") (py "x")
                               (Some (py "hello.wav")) true Concrete.empty_world).
    destruct (error_status_translated_or_reraised E (py "hello") (py "Chinese")
                (py "x") (Some (py "hello.wav")) true Concrete.empty_world
                (fst run) (snd run)
                [EvPost (request_of (py "hello") (py "Chinese") (py "x"))
                        (PostResponse r500);
                 EvMkdir (py ".")]
                (request_of (py "hello") (py "Chinese") (py "x")) r500)
      as [H500 _].
    + reflexivity.
    + reflexivity.
    + left; reflexivity.
    + apply (H500 (py "out of memory")); reflexivity.
  - set (E := Concrete.env 0 (fun _ => PostResponse r404)).
    set (run := generate_audio E (py "hello") (py "Chinese") (py "x")
                               (Some (py "hello.wav")) true Concrete.empty_world).
    destruct (error_status_translated_or_reraised E (py "hello") (py "Chinese")
                (py "x") (Some (py "hello.wav")) true Concrete.empty_world
                (fst run) (snd run)
                [EvPost (request_of (py "hello") (py "Chinese") (py "x"))
                        (PostResponse r404);
                 EvMkdir (py ".")]
                (request_of (py "hello") (py "Chinese") (py "x")) r404)
      as [_ H4xx].
    + reflexivity.
    + reflexivity.
    + left; reflexivity.
    + apply H4xx; [unfold error_status; simpl; lia | discriminate].
Defined.

(** C4 as worded does not hold for every status outside 200-299: a
    response with status 304 passes [raise_for_status], so the call raises
    nothing, saves the body and returns the path. *)
Lemma status_304_is_not_raised :
  let r := Concrete.reply 304 [] [] in
  let run := generate_audio (Concrete.env 0 (fun _ => PostResponse r)) (py "hello")
               (py "Chinese") (py "x") (Some (py "hello.wav")) true
               Concrete.empty_world in
  ~ (200 <= status_code r < 300)%Z
  /\ status_code r <> 500%Z
  /\ In (EvPost (request_of (py "hello") (py "Chinese") (py "x")) (PostResponse r))
        (trace (snd run))
  /\ fst run = Returns (py "hello.wav")
  /\ files (snd run) !! py "hello.wav" = Some [].
Proof.
  cbv zeta. split; [simpl; lia|]. split; [discriminate|].
  split; [right; left; reflexivity|]. split; reflexivity.
Qed.

(** ** Successful calls (client.py, lines 135-164) *)

(** C2, as the code has it: when a call returns, the path it returns is
    the destination of the call, a file exists there, and its content is
    the body of the response the call received, all chunks in order; so the
    size of the file is the length of that body. *)
Theorem successful_call_saves_the_body :
  forall E text language instruct output_file auto_timestamp w path w',
    generate_audio E text language instruct output_file auto_timestamp w
    = (Returns path, w') ->
    exists r evs,
      trace w' = evs ++ trace w
      /\ In (EvPost (request_of text language instruct) (PostResponse r)) evs
      /\ ~ error_status r
      /\ destination E text output_file auto_timestamp w path
      /\ files w' !! path = Some (concat (body r))
      /\ file_size w' path = Some (length (concat (body r))).
Proof.
  intros E text language instruct output_file auto_timestamp w path w' Hrun.
  destruct (generate_audio_run E _ _ _ _ _ _ _ _ Hrun)
    as [(_ & _ & e & He) | (out & Hout & Hafter)]; [discriminate He|].
  cbv zeta in Hafter. unfold after_request in Hafter.
  destruct (http_post E (record (EvMkdir (path_parent E out)) w)
                      (request_of text language instruct)) as [msg|msg|r] eqn:Ho.
  - destruct Hafter as [Hres _]. discriminate Hres.
  - destruct Hafter as [Hres _]. discriminate Hres.
  - destruct Hafter as [(_ & _ & h & _ & _ & Hres) | (Hok & Hsave)].
    { destruct (status_code r =? 500)%Z; discriminate Hres. }
    destruct (save_audio_inv E _ _ _ _ _ Hsave) as (_ & Htr & _ & Hret).
    destruct (Hret path eq_refl) as (-> & _ & Hlk).
    exists r.
    assert (Hfs : file_size w' out = Some (length (concat (body r)))).
    { unfold file_size. rewrite Hlk. reflexivity. }
    destruct Htr as [Htr | Htr].
    + eexists [_; _]. rewrite Htr. simpl.
      split; [reflexivity|]. split; [left; reflexivity|]. auto.
    + eexists [_; _; _]. rewrite Htr. simpl.
      split; [reflexivity|]. split; [right; left; reflexivity|]. auto.
Qed.

Lemma successful_call_witness :
  let r := Concrete.reply 200 [] [[Byte.x52; Byte.x49]; [Byte.x46; Byte.x46]] in
  let E := Concrete.env 0 (fun _ => PostResponse r) in
  exists r' evs,
    trace (snd (generate_audio E (py "hello") (py "Chinese") (py "x")
                  (Some (py "hello.wav")) true Concrete.empty_world))
    = evs ++ trace Concrete.empty_world
    /\ In (EvPost (request_of (py "hello") (py "Chinese") (py "x")) (PostResponse r'))
          evs
    /\ ~ error_status r'
    /\ destination E (py "hello") (Some (py "hello.wav")) true Concrete.empty_world
                   (py "hello.wav")
    /\ files (snd (generate_audio E (py "hello") (py "Chinese") (py "x")
                     (Some (py "hello.wav")) true Concrete.empty_world))
       !! py "hello.wav" = Some (concat (body r'))
    /\ file_size (snd (generate_audio E (py "hello") (py "Chinese") (py "x")
                         (Some (py "hello.wav")) true Concrete.empty_world))
                 (py "hello.wav")
       = Some (length (concat (body r'))).
Proof.
  intros r E.
  apply (successful_call_saves_the_body E (py "hello") (py "Chinese") (py "x")
           (Some (py "hello.wav")) true Concrete.empty_world (py "hello.wav")).
  reflexivity.
Defined.

(** C2 as worded does not hold: the service may answer with an empty
    body (here status 204); the call then returns the path of a file of
    size 0, after the warning of line 162. *)
Lemma empty_body_gives_empty_file :
  let r := Concrete.reply 204 [] [] in
  let run := generate_audio (Concrete.env 0 (fun _ => PostResponse r)) (py "hello")
               (py "Chinese") (py "x") (Some (py "hello.wav")) true
               Concrete.empty_world in
  py "hello" <> [] /\ py "x" <> []
  /\ fst run = Returns (py "hello.wav")
  /\ file_size (snd run) (py "hello.wav") = Some 0%nat
  /\ In (EvLog WarnIncomplete) (trace (snd run)).
Proof.
  cbv zeta. split; [discriminate|]. split; [discriminate|].
  split; [reflexivity|]. split; [reflexivity|]. left; reflexivity.
Qed.

(** ** The default file name (client.py, lines 111-120) *)

Lemma default_output_file_stripped E text auto_timestamp w :
  default_output_file E text auto_timestamp w
  = (Returns (filename_stripped E
                (if auto_timestamp then str_int (time_time E w) else []) text), w).
Proof.
  unfold default_output_file, filename_stripped, sanitized_prefix, bind, now, ret.
  destruct auto_timestamp; simpl;
    match goal with |- context [truthy ?s] => destruct s end; reflexivity.
Qed.

Lemma lstrip_Forall (P : char -> Prop) (s : pystr) :
  Forall P s -> Forall P (lstrip s).
Proof.
  induction 1 as [|c s Hc Hs IH]; simpl; [constructor|].
  destruct (isspace c); [exact IH | by constructor].
Qed.

Lemma strip_Forall (P : char -> Prop) (s : pystr) :
  Forall P s -> Forall P (strip s).
Proof.
  intros H. unfold strip, rstrip.
  apply List.Forall_rev, lstrip_Forall, List.Forall_rev, lstrip_Forall, H.
Qed.

(** Every character of the prefix used in the name is alphanumeric, a
    space, an underscore or a hyphen. *)
Lemma stripped_prefix_chars E (text : pystr) :
  Forall (fun c => isalnum E c || char_in c (py " _-") = true)
         (strip (sanitized_prefix E text)).
Proof.
  apply strip_Forall. unfold sanitized_prefix.
  apply List.Forall_forall. intros c Hc. apply filter_In in Hc as [_ Hc]. exact Hc.
Qed.

(** C7, as the code has it: without [output_file] the call runs as it
    does with the file name made of ["voice_"], the timestamp, and the
    first 20 characters of the text filtered to the alphanumeric ones,
    spaces, underscores and hyphens and then stripped of the white space at
    both ends; when nothing is left after the stripping the name is the
    timestamp alone.  A call that returns, returns this name. *)
Theorem default_name_is_stripped_prefix :
  forall E text language instruct w,
    generate_audio E text language instruct None true w
    = generate_audio E text language instruct
        (Some (filename_stripped E (str_int (time_time E w)) text)) true w
    /\ forall path w',
        generate_audio E text language instruct None true w = (Returns path, w') ->
        path = filename_stripped E (str_int (time_time E w)) text.
Proof.
  intros E text language instruct w.
  assert (Heq : generate_audio E text language instruct None true w
                = generate_audio E text language instruct
                    (Some (filename_stripped E (str_int (time_time E w)) text)) true w).
  { unfold generate_audio.
    destruct (truthy (strip text)); simpl; [|reflexivity].
    destruct (truthy (strip instruct)); simpl; [|reflexivity].
    unfold bind at 1. unfold bind at 3.
    rewrite default_output_file_stripped. reflexivity. }
  split; [exact Heq|].
  intros path w' Hrun.
  destruct (generate_audio_run E _ _ _ _ _ _ _ _ Hrun)
    as [(_ & _ & e & He) | (out & Hout & Hafter)]; [discriminate He|].
  simpl in Hout. rewrite default_output_file_stripped in Hout.
  injection Hout as <-.
  cbv zeta in Hafter. unfold after_request in Hafter.
  destruct (http_post E _ _) as [msg|msg|r].
  - destruct Hafter as [Hres _]. discriminate Hres.
  - destruct Hafter as [Hres _]. discriminate Hres.
  - destruct Hafter as [(_ & _ & h & _ & _ & Hres) | (_ & Hsave)].
    { destruct (status_code r =? 500)%Z; discriminate Hres. }
    destruct (save_audio_inv E _ _ _ _ _ Hsave) as (_ & _ & _ & Hret).
    destruct (Hret path eq_refl) as (-> & _). reflexivity.
Qed.

Lemma default_name_witness :
  let E := Concrete.env 1700000000
             (fun _ => PostResponse (Concrete.reply 200 [] [[Byte.x52]])) in
  py "voice_1700000000_hello world.wav"
  = filename_stripped E (str_int (time_time E Concrete.empty_world))
                      (py " hello world! ").
Proof.
  intros E.
  apply (proj2 (default_name_is_stripped_prefix E (py " hello world! ")
                  (py "Chinese") (py "x") Concrete.empty_world)
           (py "voice_1700000000_hello world.wav")
           (snd (generate_audio E (py " hello world! ") (py "Chinese") (py "x") None
                   true Concrete.empty_world))).
  reflexivity.
Defined.

(** C7 as worded does not hold: the filtered prefix is stripped as well.
    The first 20 characters of this text end in a space, which the
    filter keeps and the file name has not; and a text whose filtered
    prefix is a single space gets the name with the timestamp alone. *)
Lemma default_name_differs_from_filtered_prefix :
  let E := Concrete.env 1700000000
             (fun _ => PostResponse (Concrete.reply 200 [] [[Byte.x52]])) in
  fst (generate_audio E (py "The quick brown fox jumps") (py "Chinese") (py "x")
         None true Concrete.empty_world)
  = Returns (py "voice_1700000000_The quick brown fox.wav")
  /\ filename_as_specified E (py "1700000000") (py "The quick brown fox jumps")
     = py "voice_1700000000_The quick brown fox .wav"
  /\ fst (generate_audio E (py " !") (py "Chinese") (py "x") None true
            Concrete.empty_world)
     = Returns (py "voice_1700000000.wav")
  /\ sanitized_prefix E (py " !") = py " ".
Proof.
  cbv zeta. repeat split; reflexivity.
Qed.

(** ** The endpoint (server.py, lines 62-104) *)


Lemma contains_app_r (pre s x : pystr) : contains s x -> contains (pre ++ s) x.
Proof.
  intros (a & b & ->). exists (pre ++ a), b. rewrite <- app_assoc. reflexivity.
Qed.



Example endpoint_success :
  Server.post_generate_audio unit (Some (fun _ _ _ => Server.Ok ([tt], 24000%Z)))
    (fun _ _ => Server.Ok [Byte.x52; Byte.x49]) (py "hello") (py "Chinese") (py "x")
  = {| Server.status := 200; Server.response_body := Server.Binary [Byte.x52; Byte.x49] |}.
Proof. reflexivity. Qed.

(** ** Listing audio files (client.py, lines 251-268) *)

Lemma str_leb_total (s t : pystr) : str_leb s t = true \/ str_leb t s = true.
Proof.
  revert t. induction s as [|a s IH]; intros [|b t]; simpl; auto.
  destruct (N.lt_trichotomy a b) as [Hlt | [-> | Hgt]].
  - left. apply N.ltb_lt in Hlt. rewrite Hlt. reflexivity.
  - rewrite N.ltb_irrefl, N.eqb_refl. simpl. apply IH.
  - right. apply N.ltb_lt in Hgt. rewrite Hgt. reflexivity.
Qed.

Lemma str_leb_trans (s t u : pystr) :
  str_leb s t = true -> str_leb t u = true -> str_leb s u = true.
Proof.
  revert t u. induction s as [|a s IH]; intros [|b t] [|c u]; simpl; auto;
    try discriminate.
  intros H1 H2.
  apply orb_true_iff in H1 as [H1 | H1]; apply orb_true_iff in H2 as [H2 | H2];
    apply orb_true_iff.
  - left. apply N.ltb_lt in H1, H2. apply N.ltb_lt. lia.
  - apply andb_true_iff in H2 as [H2 _]. apply N.eqb_eq in H2. subst c. by left.
  - apply andb_true_iff in H1 as [H1 _]. apply N.eqb_eq in H1. subst b. by left.
  - apply andb_true_iff in H1 as [H1 H1']. apply andb_true_iff in H2 as [H2 H2'].
    right. apply N.eqb_eq in H1, H2. subst. rewrite N.eqb_refl. simpl. eauto.
Qed.

#[local] Instance str_le_total : Total str_le.
Proof. intros s t. apply str_leb_total. Qed.

#[local] Instance str_le_trans : Transitive str_le.
Proof. intros s t u. apply str_leb_trans. Qed.

Lemma rfind_dot_from_spec (s : pystr) :
  forall i last j,
    rfind_dot_from i s last = Some j ->
    last = Some j \/ (i <= j /\ s !! (j - i)%nat = Some 0x2E%N).
Proof.
  induction s as [|c s IH]; intros i last j; simpl; [auto|].
  intros H. apply IH in H as [H | [Hle Hlk]].
  - destruct (c =? 0x2E)%N eqn:Hc; [|auto].
    injection H as <-. right. split; [lia|].
    rewrite Nat.sub_diag. simpl. f_equal. by apply N.eqb_eq.
  - right. split; [lia|].
    replace (j - i)%nat with (S (j - S i)) by lia. exact Hlk.
Qed.

(** A suffix is empty or starts with the dot. *)
Lemma suffix_dot (name : pystr) :
  suffix name = [] \/ suffix name = 0x2E%N :: extension name.
Proof.
  unfold extension, suffix. destruct (rfind_dot name) as [i|] eqn:Hr; [|by left].
  destruct ((0 <? i)%nat && (i <? length name - 1)%nat); [|by left].
  right. apply rfind_dot_from_spec in Hr as [Hr | [_ Hlk]]; [discriminate|].
  rewrite Nat.sub_0_r in Hlk.
  rewrite (drop_S _ _ _ Hlk). simpl. rewrite drop_0. reflexivity.
Qed.

Lemma lower_dot E (s : pystr) : lower E (0x2E%N :: s) = 0x2E%N :: lower E s.
Proof. reflexivity. Qed.

(** The test of the code on the suffix is the test of the extension
    against the allow-list, letter case set aside. *)
Lemma audio_suffix_iff E (name : pystr) :
  lower E (suffix name) ∈ audio_extensions <-> lower E (extension name) ∈ allowed.
Proof.
  unfold audio_extensions, allowed.
  destruct (suffix_dot name) as [Hs | Hs]; rewrite Hs.
  - unfold extension. rewrite Hs. simpl.
    split; intros H; exfalso;
      repeat (apply elem_of_cons in H as [H | H]; [discriminate H|]);
      by apply elem_of_nil in H.
  - rewrite lower_dot. generalize (lower E (extension name)). intros e.
    change (py ".wav") with (0x2E%N :: py "wav").
    change (py ".mp3") with (0x2E%N :: py "mp3").
    change (py ".flac") with (0x2E%N :: py "flac").
    change (py ".ogg") with (0x2E%N :: py "ogg").
    change (py ".m4a") with (0x2E%N :: py "m4a").
    rewrite !elem_of_cons, !elem_of_nil.
    split; intros H; repeat destruct H as [H | H];
      first [ contradiction
            | injection H as ->; auto 10
            | subst e; auto 10 ].
Qed.

Lemma is_audio_iff E (entry : pystr * node) :
  is_audio E entry = true
  <-> (exists content, snd entry = File content)
      /\ In (lower E (extension (fst entry))) allowed.
Proof.
  unfold is_audio. rewrite andb_true_iff, bool_decide_eq_true, audio_suffix_iff.
  rewrite list_elem_of_In.
  split; intros [Hf Hx]; (split; [|exact Hx]).
  - destruct (snd entry) as [content|]; [eauto | discriminate].
  - destruct Hf as [content ->]. reflexivity.
Qed.

(** The list returned holds the selected paths, each as often as the
    directory lists it. *)
Lemma list_audio_files_permutation E directory d :
  list_audio_files E directory d
  ≡ₚ map (fun entry => path_join E directory (fst entry))
         (List.filter (is_audio E) (glob_star d)).
Proof. unfold list_audio_files. apply merge_sort_Permutation. Qed.

(** C8: the list returned is in ascending order, each path before all
    greater ones, and a path is in it exactly when it is the path of a
    regular file that is an entry of the directory itself and whose
    extension, letter case set aside, is one of wav, mp3, flac, ogg and
    m4a.  Subdirectories and what they hold are not entries of that kind. *)
Theorem list_audio_files_exact_and_sorted :
  forall E directory d,
    StronglySorted str_le (list_audio_files E directory d)
    /\ forall p,
        In p (list_audio_files E directory d)
        <-> exists name content,
              In (name, File content) (glob_star d)
              /\ In (lower E (extension name)) allowed
              /\ p = path_join E directory name.
Proof.
  intros E directory d. split.
  - unfold list_audio_files. apply StronglySorted_merge_sort; apply _.
  - intros p. rewrite <- !list_elem_of_In.
    rewrite (list_audio_files_permutation E directory d).
    rewrite list_elem_of_In, in_map_iff. split.
    + intros ([name nd] & <- & Hin). apply filter_In in Hin as [Hin Haudio].
      apply is_audio_iff in Haudio as [[content Hfile] Hext]. simpl in *. subst nd.
      exists name, content. auto.
    + intros (name & content & Hin & Hext & ->).
      exists (name, File content). split; [reflexivity|].
      apply filter_In. split; [exact Hin|].
      apply is_audio_iff. simpl. eauto.
Qed.

Example list_audio_files_example :
  list_audio_files (Concrete.env 0 (fun _ => PostFailed [])) (py "out")
    (Some (Dir [(py "b.mp3", File []);
                (py "notes.txt", File []);
                (py "album.wav", Dir [(py "deep.wav", File [])]);
                (py "a.wav", File [Byte.x52]);
                (py ".wav", File []);
                (py "B.OGG", File [])]))
  = [py "out/B.OGG"; py "out/a.wav"; py "out/b.mp3"].
Proof. reflexivity. Qed.

Lemma ascii_lower_variant (a b : char) :
  (b < 128)%N -> ascii_lower b = b -> same_letter a b ->
  (a < 128)%N /\ ascii_lower a = b.
Proof.
  unfold ascii_lower, same_letter. intros Hb Hstable Hsame.
  destruct ((0x41 <=? b)%N && (b <=? 0x5A)%N) eqn:Hub; [lia|].
  destruct Hsame as [-> | [[Ha ->] | [[Hb1 Hb2] _]]].
  - rewrite Hub. auto.
  - split; [lia|].
    destruct ((0x41 <=? a)%N && (a <=? 0x5A)%N) eqn:Hua; [reflexivity|].
    apply andb_false_iff in Hua as [Hua | Hua];
      [apply N.leb_gt in Hua | apply N.leb_gt in Hua]; lia.
  - apply andb_false_iff in Hub as [Hub | Hub];
      [apply N.leb_gt in Hub | apply N.leb_gt in Hub]; lia.
Qed.

Lemma lower_case_variant E (s t : pystr) :
  Forall (fun b => (b < 128)%N /\ ascii_lower b = b) t ->
  case_variant s t -> lower E s = t.
Proof.
  intros Ht Hv. induction Hv as [|a b s t Hab Hv IH]; [reflexivity|].
  apply Forall_cons in Ht as [[Hb Hstable] Ht].
  destruct (ascii_lower_variant a b Hb Hstable Hab) as [Ha Hlow].
  unfold lower. simpl. unfold lower_char at 1.
  apply N.ltb_lt in Ha. rewrite Ha. simpl. rewrite Hlow. f_equal.
  apply IH. exact Ht.
Qed.

Lemma audio_extensions_lower (ext : pystr) :
  In ext audio_extensions ->
  Forall (fun b => (b < 128)%N /\ ascii_lower b = b) ext.
Proof.
  unfold audio_extensions. simpl.
  intros H. repeat destruct H as [<- | H]; try destruct H;
    repeat constructor.
Qed.

(** C10: a regular file of the directory whose suffix is an allow-listed
    extension in any letter case, as [.WAV] or [.Mp3] are, is in the list
    returned. *)
Theorem extension_match_ignores_case :
  forall E directory entries name content ext,
    In ext audio_extensions ->
    case_variant (suffix name) ext ->
    In (name, File content) entries ->
    In (path_join E directory name)
       (list_audio_files E directory (Some (Dir entries))).
Proof.
  intros E directory entries name content ext Hext Hv Hin.
  rewrite <- list_elem_of_In, (list_audio_files_permutation E directory _).
  rewrite list_elem_of_In, in_map_iff.
  exists (name, File content). split; [reflexivity|].
  apply filter_In. split; [exact Hin|].
  unfold is_audio. simpl. apply bool_decide_eq_true.
  rewrite (lower_case_variant E _ ext (audio_extensions_lower ext Hext) Hv).
  by apply list_elem_of_In.
Qed.

Ltac same_letter_tac :=
  first [ left; reflexivity
        | right; left; split; [lia | reflexivity]
        | right; right; split; [lia | reflexivity] ].

Ltac case_variant_tac :=
  unfold case_variant;
  match goal with
  | |- Forall2 _ ?s ?t =>
      let s' := eval vm_compute in s in
      let t' := eval vm_compute in t in
      change (Forall2 same_letter s' t')
  end;
  repeat (apply List.Forall2_cons; [same_letter_tac|]); apply List.Forall2_nil.

Lemma extension_match_witness :
  In (py "out/SONG.WAV")
     (list_audio_files (Concrete.env 0 (fun _ => PostFailed [])) (py "out")
        (Some (Dir [(py "track.Mp3", File []); (py "SONG.WAV", File [])])))
  /\ In (py "out/track.Mp3")
        (list_audio_files (Concrete.env 0 (fun _ => PostFailed [])) (py "out")
           (Some (Dir [(py "track.Mp3", File []); (py "SONG.WAV", File [])]))).
Proof.
  split.
  - apply (extension_match_ignores_case (Concrete.env 0 (fun _ => PostFailed []))
             (py "out") [(py "track.Mp3", File []); (py "SONG.WAV", File [])]
             (py "SONG.WAV") [] (py ".wav")).
    + left; reflexivity.
    + case_variant_tac.
    + right; left; reflexivity.
  - apply (extension_match_ignores_case (Concrete.env 0 (fun _ => PostFailed []))
             (py "out") [(py "track.Mp3", File []); (py "SONG.WAV", File [])]
             (py "track.Mp3") [] (py ".mp3")).
    + right; left; reflexivity.
    + case_variant_tac.
    + left; reflexivity.
Defined.

(** ** Batches (client.py, lines 184-249) *)

(** The outcome of an item's call is stored whatever it is: a call that
    raises does not end the loop. *)
Lemma process_item_stores_outcome E output_dir item results w :
  process_item E output_dir item results w
  = (Returns (<[item_key item :=
                  outcome_value (fst (generate_item E output_dir item w))]> results),
     snd (generate_item E output_dir item w)).
Proof.
  unfold process_item, try_except, bind, item_key.
  destruct (generate_item E output_dir item w) as [[file_path | e] w1]; reflexivity.
Qed.

Lemma outcome_value_raises (e : exn) : error_tagged (outcome_value (Raises e)).
Proof. exists (str_exn e). reflexivity. Qed.




(** A failing item is recorded and the next one is processed. *)
Example batch_continues_after_failure :
  let E := Concrete.env 0 (fun _ => PostResponse (Concrete.reply 200 [] [[Byte.x52]])) in
  let items :=
    [ {| item_text := Some (py "  "); item_language := None;
         item_instruct := None; item_filename := Some (py "a.wav") |};
      {| item_text := Some (py "hello"); item_language := None;
         item_instruct := None; item_filename := Some (py "b.wav") |} ] in
  let run := batch_generate E items (py "out") 1 Concrete.empty_world in
  fst run = Returns (<[ py "  ..." := py "ERROR: 文本内容不能为空" ]>
                       {[ py "hello..." := py "out/b.wav" ]})
  /\ files (snd run) !! py "out/b.wav" = Some [Byte.x52]
  /\ In (EvSleep 1) (trace (snd run))
  /\ In (EvLog (BatchDone 1 2)) (trace (snd run)).
Proof.
  cbv zeta. split; [reflexivity|]. split; [reflexivity|].
  split; [do 4 right; left; reflexivity | left; reflexivity].
Qed.

(** C1 at two items with the same text: both calls return, both files
    are written, and the mapping has one entry for the two items, the first
    outcome overwritten by the second; the tally of the last log line is 1
    of 2. *)
Theorem batch_same_text_one_entry :
  let E := Concrete.env 0 (fun _ => PostResponse (Concrete.reply 200 [] [[Byte.x52]])) in
  let items :=
    [ {| item_text := Some (py "hello"); item_language := None;
         item_instruct := Some (py "gentle female voice");
         item_filename := Some (py "a.wav") |};
      {| item_text := Some (py "hello"); item_language := None;
         item_instruct := Some (py "deep male voice");
         item_filename := Some (py "b.wav") |} ] in
  let run := batch_generate E items (py "out") 1 Concrete.empty_world in
  length items = 2
  /\ fst run = Returns {[ py "hello..." := py "out/b.wav" ]}
  /\ (exists results, fst run = Returns results /\ size results = 1)
  /\ files (snd run) !! py "out/a.wav" = Some [Byte.x52]
  /\ files (snd run) !! py "out/b.wav" = Some [Byte.x52]
  /\ In (EvLog (BatchDone 1 2)) (trace (snd run)).
Proof.
  cbv zeta. split; [reflexivity|].
  assert (Hrun :
    fst (batch_generate
           (Concrete.env 0 (fun _ => PostResponse (Concrete.reply 200 [] [[Byte.x52]])))
           [ {| item_text := Some (py "hello"); item_language := None;
                item_instruct := Some (py "gentle female voice");
                item_filename := Some (py "a.wav") |};
             {| item_text := Some (py "hello"); item_language := None;
                item_instruct := Some (py "deep male voice");
                item_filename := Some (py "b.wav") |} ]
           (py "out") 1 Concrete.empty_world)
    = Returns {[ py "hello..." := py "out/b.wav" ]}) by reflexivity.
  split; [exact Hrun|]. split.
  { eexists. split; [exact Hrun|]. apply map_size_singleton. }
  split; [reflexivity|]. split; [reflexivity|]. left; reflexivity.
Qed.

(** * Further properties *)

(** ** More on [generate_audio] *)

Section RunMore.

Variable E : Env.

Lemma write_chunks_prefix path chunks err :
  forall w res w' c0,
    write_chunks E path chunks err w = (res, w') ->
    files w !! path = Some c0 ->
    exists n, files w' !! path = Some (c0 ++ concat (take n chunks)).
Proof.
  induction chunks as [|chunk rest IH]; intros w res w' c0; simpl.
  - intros Hrun Hc0. exists 0%nat. simpl. rewrite app_nil_r.
    destruct err; unfold raise, ret in Hrun; injection Hrun as <- <-; exact Hc0.
  - destruct chunk as [|b chunk].
    + intros Hrun Hc0. destruct (IH _ _ _ _ Hrun Hc0) as [n Hn].
      exists (S n). exact Hn.
    + unfold bind at 1.
      destruct (write E path (b :: chunk) w) as [r w1] eqn:Hw.
      apply write_inv in Hw as (_ & _ & [[msg [-> ->]] | [-> Hfiles]]).
      * intros [= <- <-] Hc0. exists 0%nat. simpl. rewrite app_nil_r. exact Hc0.
      * intros Hrun Hc0.
        assert (Hc1 : files w1 !! path = Some (c0 ++ b :: chunk)).
        { rewrite Hfiles. apply lookup_alter_Some. left. split; [reflexivity|].
          exists c0. split; [exact Hc0 | reflexivity]. }
        destruct (IH _ _ _ _ Hrun Hc1) as [n Hn].
        exists (S n). rewrite Hn. simpl. rewrite <- app_assoc. reflexivity.
Qed.

Lemma write_chunks_raises path chunks err :
  forall w res w',
    write_chunks E path chunks err w = (res, w') -> io_or_transport res.
Proof.
  induction chunks as [|chunk rest IH]; intros w res w'; simpl.
  - destruct err; unfold raise, ret; intros [= <- <-]; exact I.
  - destruct chunk as [|b chunk]; [apply IH|].
    unfold bind at 1.
    destruct (write E path (b :: chunk) w) as [r w1] eqn:Hw.
    apply write_inv in Hw as (_ & _ & [[msg [-> ->]] | [-> _]]).
    + intros [= <- <-]. exact I.
    + apply IH.
Qed.

(** The course of [save_audio] in full: the file is untouched when it
    cannot be opened; otherwise it holds the leading chunks of the body,
    all of them when the call returns, and the warning is logged exactly
    for a size under 1000. *)
Lemma save_audio_course out r w res w' :
  save_audio E out r w = (res, w') ->
  io_or_transport res
  /\ ((files w' = files w /\ trace w' = trace w /\ exists e, res = Raises e)
      \/ exists n,
          files w' !! out = Some (concat (take n (body r)))
          /\ ((trace w' = trace w /\ exists e, res = Raises e)
              \/ (res = Returns out
                  /\ files w' !! out = Some (concat (body r))
                  /\ ((Z.of_nat (length (concat (body r))) < 1000)%Z
                      /\ trace w' = EvLog WarnIncomplete :: trace w
                      \/ (1000 <= Z.of_nat (length (concat (body r))))%Z
                         /\ trace w' = trace w)))).
Proof.
  unfold save_audio, open_wb.
  unfold bind at 1. unfold bind at 1.
  destruct (sys E (SysOpen out) w) as [r0 w0] eqn:Hs.
  apply sys_inv in Hs as [-> [[-> _] | [msg [-> _]]]].
  2:{ intros [= <- <-]. split; [exact I|]. left. eauto. }
  unfold get_world, set_files, bind at 1.
  set (w1 := {| files := <[out:=[]]> (files w); trace := trace w |}).
  unfold bind at 1.
  destruct (write_chunks E out (body r) (body_error r) w1) as [r2 w2] eqn:Hwc.
  assert (Hw1 : files w1 !! out = Some []) by apply lookup_insert_eq.
  destruct (write_chunks_prefix _ _ _ _ _ _ _ Hwc Hw1) as [n Hn]. simpl in Hn.
  pose proof (write_chunks_raises _ _ _ _ _ _ Hwc) as Hio.
  apply write_chunks_inv in Hwc as (_ & Htr & _ & Hdone).
  destruct r2 as [[]|e].
  2:{ intros [= <- <-]. split; [exact Hio|]. right. exists n.
      split; [exact Hn|]. left. split; [exact Htr | eauto]. }
  destruct (Hdone eq_refl) as [_ Hlk]. rewrite Hw1 in Hlk. simpl in Hlk.
  unfold stat_size. unfold bind at 1. unfold bind at 1.
  destruct (sys E (SysStat out) w2) as [r3 w3] eqn:Hs.
  apply sys_inv in Hs as [-> [[-> _] | [msg [-> _]]]].
  2:{ intros [= <- <-]. split; [exact I|]. right. exists n.
      split; [exact Hn|]. left. split; [exact Htr | eauto]. }
  unfold get_world, bind at 1. rewrite Hlk. unfold ret at 1.
  unfold bind at 1.
  destruct (Z.of_nat (length (concat (body r))) <? 1000)%Z eqn:Hsize;
    unfold emit, ret, bind; intros [= <- <-];
    (split; [exact I|]); right; exists n; simpl;
    (split; [exact Hn|]); right;
    (split; [reflexivity|]); (split; [exact Hlk|]).
  - left. split; [lia|]. rewrite Htr. reflexivity.
  - right. split; [lia|]. exact Htr.
Qed.

(** The effects of one call: none, or the directory made, the request
    sent, and at most the warning after them. *)
Lemma generate_audio_events text language instruct output_file auto_timestamp
    w res w' :
  generate_audio E text language instruct output_file auto_timestamp w = (res, w') ->
  w' = w
  \/ exists out o logs,
      destination E text output_file auto_timestamp w out
      /\ trace w' = logs ++ [EvPost (request_of text language instruct) o;
                             EvMkdir (path_parent E out)] ++ trace w
      /\ (logs = [] \/ logs = [EvLog WarnIncomplete]).
Proof.
  intros Hrun.
  destruct (generate_audio_run E _ _ _ _ _ _ _ _ Hrun)
    as [(-> & _ & _) | (out & Hout & Hafter)]; [by left|].
  right. cbv zeta in Hafter. unfold after_request in Hafter.
  exists out, (http_post E (record (EvMkdir (path_parent E out)) w)
                          (request_of text language instruct)).
  destruct (http_post E (record (EvMkdir (path_parent E out)) w)
                      (request_of text language instruct)) as [msg|msg|r].
  - destruct Hafter as [_ ->]. exists []. split; [exact Hout|]. split; [reflexivity | by left].
  - destruct Hafter as [_ ->]. exists []. split; [exact Hout|]. split; [reflexivity | by left].
  - destruct Hafter as [(_ & -> & _) | (_ & Hsave)].
    + exists []. split; [exact Hout|]. split; [reflexivity | by left].
    + apply save_audio_inv in Hsave as (_ & [Ht | Ht] & _).
      * exists []. split; [exact Hout|]. rewrite Ht. split; [reflexivity | by left].
      * exists [EvLog WarnIncomplete]. split; [exact Hout|]. rewrite Ht.
        split; [reflexivity | by right].
Qed.

End RunMore.

Lemma destination_exists E text output_file auto_timestamp w :
  exists out, destination E text output_file auto_timestamp w out.
Proof.
  destruct output_file as [f|]; simpl; [eauto|].
  apply default_output_file_returns.
Qed.

(** A call with a blank text or a blank instruct stops at once; any other
    call stops before its request only when the directory cannot be
    made. *)
Lemma generate_audio_validated E text language instruct output_file auto_timestamp
    w res w' :
  generate_audio E text language instruct output_file auto_timestamp w = (res, w') ->
  (truthy (strip text) = false
   /\ res = Raises (ValueError (py "文本内容不能为空") None) /\ w' = w)
  \/ (truthy (strip text) = true /\ truthy (strip instruct) = false
      /\ res = Raises (ValueError (py "语音指令不能为空") None) /\ w' = w)
  \/ (truthy (strip text) = true /\ truthy (strip instruct) = true
      /\ exists out,
          destination E text output_file auto_timestamp w out
          /\ ((exists msg, os_error E w (SysMkdir (path_parent E out)) = Some msg
                           /\ res = Raises (IOError msg) /\ w' = w)
              \/ (os_error E w (SysMkdir (path_parent E out)) = None
                  /\ let w1 := record (EvMkdir (path_parent E out)) w in
                     let rq := request_of text language instruct in
                     let o := http_post E w1 rq in
                     after_request E out o (record (EvPost rq o) w1) res w'))).
Proof.
  intros Hrun. pose proof Hrun as Hcases. unfold generate_audio in Hrun.
  destruct (truthy (strip text)) eqn:Ht; simpl in Hrun.
  2:{ injection Hrun as <- <-. left. auto. }
  destruct (truthy (strip instruct)) eqn:Hi; simpl in Hrun.
  2:{ injection Hrun as <- <-. right; left. auto. }
  right; right. split; [reflexivity|]. split; [reflexivity|].
  clear Hrun.
  destruct (generate_audio_run E _ _ _ _ _ _ _ _ Hcases)
    as [(-> & _ & e & ->) | (out & Hout & Hafter)].
  - destruct (destination_exists E text output_file auto_timestamp w) as [out Hout].
    exists out. split; [exact Hout|]. left.
    unfold generate_audio in Hcases. rewrite Ht, Hi in Hcases. simpl in Hcases.
    unfold bind at 1 in Hcases.
    assert (Hd : match output_file with
                 | Some f => ret f
                 | None => default_output_file E text auto_timestamp
                 end w = (Returns out, w)).
    { destruct output_file as [f|]; simpl in Hout; [subst; reflexivity | exact Hout]. }
    rewrite Hd in Hcases.
    unfold mkdir_parents in Hcases. unfold bind at 1 in Hcases.
    unfold bind at 1 in Hcases. unfold sys in Hcases.
    destruct (os_error E w (SysMkdir (path_parent E out))) as [msg|].
    + injection Hcases as <-. eauto.
    + exfalso. unfold emit, try_except, bind, requests_post in Hcases.
      destruct (http_post E _ _) as [m|m|r]; simpl in Hcases.
      * injection Hcases as _ Hw. apply (f_equal trace) in Hw. simpl in Hw.
        apply (f_equal (@length event)) in Hw. simpl in Hw. lia.
      * injection Hcases as _ Hw. apply (f_equal trace) in Hw. simpl in Hw.
        apply (f_equal (@length event)) in Hw. simpl in Hw. lia.
      * fold (request_of text language instruct) in Hcases.
        set (w2 := record (EvPost (request_of text language instruct) (PostResponse r))
                          (record (EvMkdir (path_parent E out)) w)) in *.
        assert (Hlen : forall (res0 : outcome pystr),
                   (length (trace w) < length (trace w2))%nat) by (intros; simpl; lia).
        destruct (raise_for_status_cases r) as [[_ (h & Hr & _)] | [_ Hr]];
          rewrite Hr in Hcases; unfold raise, ret in Hcases; simpl in Hcases.
        -- destruct (status_code (he_response h) =? 500)%Z; unfold raise in Hcases;
             injection Hcases as _ Hw; apply (f_equal trace) in Hw; simpl in Hw;
             apply (f_equal (@length event)) in Hw; simpl in Hw; lia.
        -- destruct (save_audio E out r w2) as [r3 w3] eqn:Hsave.
           pose proof (save_audio_inv E _ _ _ _ _ Hsave) as (Hnh & Htr & _).
           assert (Hw3 : w3 = w).
           { destruct r3 as [p|e1]; [congruence|].
             rewrite on_error_not_http in Hcases by exact Hnh. congruence. }
           subst w3.
           destruct Htr as [Htr | Htr]; apply (f_equal (@length event)) in Htr;
             simpl in Htr; lia.
  - exists out. split; [exact Hout|]. right.
    split; [|exact Hafter].
    unfold generate_audio in Hcases. rewrite Ht, Hi in Hcases. simpl in Hcases.
    unfold bind at 1 in Hcases.
    assert (Hd : match output_file with
                 | Some f => ret f
                 | None => default_output_file E text auto_timestamp
                 end w = (Returns out, w)).
    { destruct output_file as [f|]; simpl in Hout; [subst; reflexivity | exact Hout]. }
    rewrite Hd in Hcases.
    unfold mkdir_parents in Hcases. unfold bind at 1 in Hcases.
    unfold bind at 1 in Hcases. unfold sys in Hcases.
    destruct (os_error E w (SysMkdir (path_parent E out))) as [msg|]; [|reflexivity].
    exfalso. injection Hcases as <- <-.
    cbv zeta in Hafter. unfold after_request in Hafter.
    destruct (http_post E _ _) as [m|m|r].
    + destruct Hafter as [_ Hw]. apply (f_equal trace) in Hw.
      apply (f_equal (@length event)) in Hw. simpl in Hw. lia.
    + destruct Hafter as [_ Hw]. apply (f_equal trace) in Hw.
      apply (f_equal (@length event)) in Hw. simpl in Hw. lia.
    + destruct Hafter as [(_ & Hw & _) | (_ & Hsave)].
      * apply (f_equal trace) in Hw.
        apply (f_equal (@length event)) in Hw. simpl in Hw. lia.
      * apply save_audio_inv in Hsave as (_ & [Htr | Htr] & _);
          apply (f_equal (@length event)) in Htr; simpl in Htr; lia.
Qed.

(** X1: a call changes no file but its destination: every other path
    holds after the call what it held before, whatever the outcome. *)
Theorem other_files_untouched :
  forall E text language instruct output_file auto_timestamp w res w',
    generate_audio E text language instruct output_file auto_timestamp w = (res, w') ->
    exists out,
      destination E text output_file auto_timestamp w out
      /\ forall q, q <> out -> files w' !! q = files w !! q.
Proof.
  intros E text language instruct output_file auto_timestamp w res w' Hrun.
  destruct (generate_audio_run E _ _ _ _ _ _ _ _ Hrun)
    as [(-> & _ & _) | (out & Hout & Hafter)].
  - destruct (destination_exists E text output_file auto_timestamp w) as [out Hout].
    exists out. auto.
  - exists out. split; [exact Hout|]. intros q Hq.
    cbv zeta in Hafter. unfold after_request in Hafter.
    destruct (http_post E _ _) as [m|m|r].
    + destruct Hafter as [_ ->]. reflexivity.
    + destruct Hafter as [_ ->]. reflexivity.
    + destruct Hafter as [(_ & -> & _) | (_ & Hsave)]; [reflexivity|].
      apply save_audio_inv in Hsave as (_ & _ & Hother & _).
      rewrite (Hother q Hq). reflexivity.
Qed.

Lemma other_files_untouched_witness :
  let E := Concrete.env 0 (fun _ => PostResponse (Concrete.reply 200 [] [[Byte.x52]])) in
  let w := {| files := {[ py "old.wav" := [Byte.x49] ]}; trace := [] |} in
  exists out,
    destination E (py "hello") (Some (py "new.wav")) true w out
    /\ forall q, q <> out ->
         files (snd (generate_audio E (py "hello") (py "Chinese") (py "x")
                       (Some (py "new.wav")) true w)) !! q
         = files w !! q.
Proof.
  intros E w.
  apply (other_files_untouched E (py "hello") (py "Chinese") (py "x")
           (Some (py "new.wav")) true w
           (fst (generate_audio E (py "hello") (py "Chinese") (py "x")
                   (Some (py "new.wav")) true w))).
  reflexivity.
Defined.

(** X2: a call sends at most one request and never pauses; the request it
    sends carries the text, the language and the instruct exactly as they
    were given (the text is not stripped), and the parent directory of the
    destination was made before it. *)
Theorem at_most_one_request :
  forall E text language instruct output_file auto_timestamp w res w' evs,
    generate_audio E text language instruct output_file auto_timestamp w = (res, w') ->
    trace w' = evs ++ trace w ->
    (posts evs <= 1)%nat
    /\ sleeps evs = 0%nat
    /\ forall rq o,
        In (EvPost rq o) evs ->
        rq = request_of text language instruct
        /\ exists out pre,
            destination E text output_file auto_timestamp w out
            /\ evs = pre ++ [EvPost rq o; EvMkdir (path_parent E out)].
Proof.
  intros E text language instruct output_file auto_timestamp w res w' evs Hrun Htr.
  destruct (generate_audio_events E _ _ _ _ _ _ _ _ Hrun)
    as [-> | (out & o & logs & Hout & Htr' & Hlogs)].
  - symmetry in Htr. apply app_tail_nil in Htr. subst evs.
    split; [unfold posts; simpl; lia|]. split; [reflexivity|]. intros rq o0 [].
  - rewrite Htr, app_assoc in Htr'. apply app_inv_tail in Htr'. subst evs.
    split; [|split].
    + destruct Hlogs as [-> | ->]; unfold posts; simpl; lia.
    + destruct Hlogs as [-> | ->]; reflexivity.
    + intros rq o0 Hin.
      assert (Heq : EvPost rq o0 = EvPost (request_of text language instruct) o).
      { destruct Hlogs as [-> | ->]; simpl in Hin;
          repeat (destruct Hin as [Hin | Hin];
                  try discriminate Hin; try (symmetry; exact Hin));
          destruct Hin. }
      injection Heq as -> ->. split; [reflexivity|]. exists out, logs. auto.
Qed.

Lemma at_most_one_request_witness :
  let E := Concrete.env 0 (fun _ => PostResponse (Concrete.reply 200 [] [[Byte.x52]])) in
  let run := generate_audio E (py " hello ") (py "Chinese") (py "x")
               (Some (py "out/h.wav")) true Concrete.empty_world in
  (posts (trace (snd run)) <= 1)%nat /\ sleeps (trace (snd run)) = 0%nat.
Proof.
  intros E run.
  destruct (at_most_one_request E (py " hello ") (py "Chinese") (py "x")
              (Some (py "out/h.wav")) true Concrete.empty_world (fst run) (snd run)
              (trace (snd run))) as (Hp & Hs & _).
  - reflexivity.
  - symmetry. apply app_nil_r.
  - split; assumption.
Defined.

(** X3: a timeout and a connection error of the request are raised to the
    caller as they came, with their message, and leave the files as they
    were. *)
Theorem network_errors_pass_unchanged :
  forall E text language instruct output_file auto_timestamp w res w' evs rq msg,
    generate_audio E text language instruct output_file auto_timestamp w = (res, w') ->
    trace w' = evs ++ trace w ->
    (In (EvPost rq (PostTimeout msg)) evs ->
     res = Raises (Timeout msg) /\ files w' = files w)
    /\ (In (EvPost rq (PostFailed msg)) evs ->
        res = Raises (RequestException msg) /\ files w' = files w).
Proof.
  intros E text language instruct output_file auto_timestamp w res w' evs rq msg
         Hrun Htr.
  split; intros Hin;
    destruct (generate_audio_request E _ _ _ _ _ _ _ _ _ _ _ Hrun Htr Hin)
      as (out & _ & _ & _ & Hafter);
    simpl in Hafter; destruct Hafter as [-> ->]; auto.
Qed.

Lemma network_errors_witness :
  let E := Concrete.env 0 (fun _ => PostFailed (py "Connection refused")) in
  let run := generate_audio E (py "hello") (py "Chinese") (py "x")
               (Some (py "h.wav")) true Concrete.empty_world in
  fst run = Raises (RequestException (py "Connection refused"))
  /\ files (snd run) = files Concrete.empty_world.
Proof.
  intros E run.
  destruct (network_errors_pass_unchanged E (py "hello") (py "Chinese") (py "x")
              (Some (py "h.wav")) true Concrete.empty_world (fst run) (snd run)
              (trace (snd run))
              (request_of (py "hello") (py "Chinese") (py "x"))
              (py "Connection refused")) as [_ Hfailed].
  - reflexivity.
  - symmetry. apply app_nil_r.
  - apply Hfailed. left. reflexivity.
Defined.

(** X4: after a call that returns, the warning about an incomplete file is
    on record exactly when the file is smaller than 1000 bytes; a file of
    1000 bytes is not warned about. *)
Theorem warning_exactly_under_1000_bytes :
  forall E text language instruct output_file auto_timestamp w path w' evs,
    generate_audio E text language instruct output_file auto_timestamp w
    = (Returns path, w') ->
    trace w' = evs ++ trace w ->
    exists size,
      file_size w' path = Some size
      /\ (In (EvLog WarnIncomplete) evs <-> (size < 1000)%nat).
Proof.
  intros E text language instruct output_file auto_timestamp w path w' evs Hrun Htr.
  destruct (generate_audio_run E _ _ _ _ _ _ _ _ Hrun)
    as [(_ & _ & e & He) | (out & Hout & Hafter)]; [discriminate He|].
  cbv zeta in Hafter. unfold after_request in Hafter.
  destruct (http_post E _ _) as [m|m|r].
  - destruct Hafter as [Hres _]. discriminate Hres.
  - destruct Hafter as [Hres _]. discriminate Hres.
  - destruct Hafter as [(_ & _ & h & _ & _ & Hres) | (_ & Hsave)].
    { destruct (status_code r =? 500)%Z; discriminate Hres. }
    apply save_audio_course in Hsave
      as (_ & [(_ & _ & e & He) | (n & _ & [(_ & e & He) | (Hres & Hlk & Hwarn)])]);
      try discriminate He.
    injection Hres as ->.
    exists (length (concat (body r))). split.
    { unfold file_size. rewrite Hlk. reflexivity. }
    destruct Hwarn as [[Hsize Htr'] | [Hsize Htr']]; rewrite Htr in Htr'; simpl in Htr'.
    + change (evs ++ trace w
              = [EvLog WarnIncomplete;
                 EvPost (request_of text language instruct) (PostResponse r);
                 EvMkdir (path_parent E out)] ++ trace w) in Htr'.
      apply app_inv_tail in Htr'. subst evs. split; [lia | intros _; by left].
    + change (evs ++ trace w
              = [EvPost (request_of text language instruct) (PostResponse r);
                 EvMkdir (path_parent E out)] ++ trace w) in Htr'.
      apply app_inv_tail in Htr'. subst evs. split; [|lia].
      intros [Hin | [Hin | []]]; discriminate Hin.
Qed.

Lemma warning_witness :
  let E := Concrete.env 0 (fun _ => PostResponse (Concrete.reply 200 [] [[Byte.x52]])) in
  let run := generate_audio E (py "hello") (py "Chinese") (py "x")
               (Some (py "h.wav")) true Concrete.empty_world in
  exists size,
    file_size (snd run) (py "h.wav") = Some size
    /\ (In (EvLog WarnIncomplete) (trace (snd run)) <-> (size < 1000)%nat).
Proof.
  intros E run.
  apply (warning_exactly_under_1000_bytes E (py "hello") (py "Chinese") (py "x")
           (Some (py "h.wav")) true Concrete.empty_world (py "h.wav") (snd run)
           (trace (snd run))).
  - reflexivity.
  - symmetry. apply app_nil_r.
Defined.

(** X5: whatever the outcome of a call, its destination either holds what
    it held before, or holds the leading chunks of the body of the response
    the call received, one after the other and nothing else: what a file
    held before is not kept, and nothing but the body is written. *)
Theorem destination_holds_leading_chunks :
  forall E text language instruct output_file auto_timestamp w res w',
    generate_audio E text language instruct output_file auto_timestamp w = (res, w') ->
    exists out,
      destination E text output_file auto_timestamp w out
      /\ (files w' !! out = files w !! out
          \/ exists r n evs,
              trace w' = evs ++ trace w
              /\ In (EvPost (request_of text language instruct) (PostResponse r)) evs
              /\ files w' !! out = Some (concat (take n (body r)))).
Proof.
  intros E text language instruct output_file auto_timestamp w res w' Hrun.
  destruct (generate_audio_run E _ _ _ _ _ _ _ _ Hrun)
    as [(-> & _ & _) | (out & Hout & Hafter)].
  - destruct (destination_exists E text output_file auto_timestamp w) as [out Hout].
    exists out. auto.
  - exists out. split; [exact Hout|].
    cbv zeta in Hafter. unfold after_request in Hafter.
    destruct (http_post E _ _) as [m|m|r].
    + destruct Hafter as [_ ->]. by left.
    + destruct Hafter as [_ ->]. by left.
    + destruct Hafter as [(_ & -> & _) | (_ & Hsave)]; [by left|].
      pose proof (save_audio_inv E _ _ _ _ _ Hsave) as (_ & Htr & _).
      apply save_audio_course in Hsave as (_ & [(Hf & _) | (n & Hn & _)]).
      * left. rewrite Hf. reflexivity.
      * right. exists r, n.
        destruct Htr as [Htr | Htr].
        -- eexists [_; _]. rewrite Htr. split; [reflexivity|].
           split; [left; reflexivity | exact Hn].
        -- eexists [_; _; _]. rewrite Htr. split; [reflexivity|].
           split; [right; left; reflexivity | exact Hn].
Qed.

Lemma leading_chunks_witness :
  let r := {| status_code := 200; reason := py "OK"; url := [];
              response_text := []; body := [[Byte.x52]; [Byte.x49]];
              body_error := Some (py "Connection broken") |} in
  let E := Concrete.env 0 (fun _ => PostResponse r) in
  let w := {| files := {[ py "h.wav" := [Byte.x00; Byte.x00; Byte.x00] ]};
              trace := [] |} in
  exists out,
    destination E (py "hello") (Some (py "h.wav")) true w out
    /\ (files (snd (generate_audio E (py "hello") (py "Chinese") (py "x")
                      (Some (py "h.wav")) true w)) !! out
        = files w !! out
        \/ exists r' n evs,
            trace (snd (generate_audio E (py "hello") (py "Chinese") (py "x")
                          (Some (py "h.wav")) true w)) = evs ++ trace w
            /\ In (EvPost (request_of (py "hello") (py "Chinese") (py "x"))
                          (PostResponse r')) evs
            /\ files (snd (generate_audio E (py "hello") (py "Chinese") (py "x")
                             (Some (py "h.wav")) true w)) !! out
               = Some (concat (take n (body r')))).
Proof.
  intros r E w.
  apply (destination_holds_leading_chunks E (py "hello") (py "Chinese") (py "x")
           (Some (py "h.wav")) true w
           (fst (generate_audio E (py "hello") (py "Chinese") (py "x")
                   (Some (py "h.wav")) true w))).
  reflexivity.
Defined.



(** ** More on the default file name *)

Lemma digits_chars (d : Decimal.uint) :
  Forall (fun c => (0x30 <= c <= 0x39)%N) (bytes_of (NilEmpty.string_of_uint d)).
Proof.
  unfold bytes_of.
  induction d; simpl; constructor; try assumption; lia.
Qed.

Lemma string_of_uint_chars (d : Decimal.uint) :
  Forall (fun c => (0x30 <= c <= 0x39)%N) (bytes_of (NilZero.string_of_uint d)).
Proof.
  destruct d; try apply digits_chars.
  unfold bytes_of. simpl. constructor; [lia | constructor].
Qed.

(** [str(n)] is made of digits, after a minus sign for a negative [n]. *)
Lemma str_int_chars (z : Z) :
  Forall (fun c => (0x30 <= c <= 0x39)%N \/ c = 0x2D%N) (str_int z).
Proof.
  unfold str_int, NilZero.string_of_int.
  destruct (Z.to_int z) as [d|d].
  - eapply Forall_impl; [apply string_of_uint_chars|]. intros c Hc. by left.
  - unfold bytes_of. simpl. constructor; [by right|].
    eapply Forall_impl; [apply string_of_uint_chars|]. intros c Hc. by left.
Qed.

Lemma name_char_not_separator E (c : char) :
  name_char E c -> c <> 0x2F%N /\ c <> 0x5C%N /\ c <> 0%N.
Proof.
  intros [Halnum | Hin].
  - repeat split; intros ->; discriminate Halnum.
  - repeat split; intros ->; vm_compute in Hin;
      repeat (destruct Hin as [Hin | Hin]; [discriminate Hin|]); destruct Hin.
Qed.

Lemma digit_name_char E (c : char) :
  (0x30 <= c <= 0x39)%N \/ c = 0x2D%N -> name_char E c.
Proof.
  intros [[Hlo Hhi] | ->]; [left | right; vm_compute; auto].
  unfold isalnum, ascii_isalnum.
  assert (H128 : (c <? 128)%N = true) by (apply N.ltb_lt; lia).
  rewrite H128.
  assert (H1 : (0x30 <=? c)%N = true) by (apply N.leb_le; lia).
  assert (H2 : (c <=? 0x39)%N = true) by (apply N.leb_le; lia).
  rewrite H1, H2. reflexivity.
Qed.

Lemma kept_name_char E (c : char) :
  isalnum E c || char_in c (py " _-") = true -> name_char E c.
Proof.
  intros H. apply orb_true_iff in H as [H | H]; [by left | right].
  unfold char_in in H. apply existsb_exists in H as (x & Hx & Hc).
  apply N.eqb_eq in Hc. subst x.
  change (py " _-.") with (py " _-" ++ py "."). apply in_or_app. by left.
Qed.

Ltac literal_name_chars :=
  repeat (apply List.Forall_cons;
          [first [left; reflexivity | right; vm_compute; tauto]|]);
  apply List.Forall_nil.

(** X7: the file name made when [output_file] is omitted holds nothing but
    alphanumeric characters, spaces, underscores, hyphens and dots, so no
    path separator and no NUL: whatever the text is, the file is made in
    the current directory. *)
Theorem default_name_has_no_separator :
  forall E text auto_timestamp w out,
    destination E text None auto_timestamp w out ->
    Forall (name_char E) out
    /\ ~ In 0x2F%N out /\ ~ In 0x5C%N out /\ ~ In 0%N out.
Proof.
  intros E text auto_timestamp w out Hout. simpl in Hout.
  rewrite default_output_file_stripped in Hout. injection Hout as <-.
  assert (Hts : Forall (name_char E)
                  (if auto_timestamp then str_int (time_time E w) else [])).
  { destruct auto_timestamp; [|constructor].
    eapply Forall_impl; [apply str_int_chars|]. apply digit_name_char. }
  assert (Hsafe : Forall (name_char E) (strip (sanitized_prefix E text))).
  { eapply Forall_impl; [apply stripped_prefix_chars|]. apply kept_name_char. }
  assert (Hall : Forall (name_char E)
                   (filename_stripped E
                      (if auto_timestamp then str_int (time_time E w) else []) text)).
  { unfold filename_stripped.
    destruct (strip (sanitized_prefix E text)) as [|c prefix].
    - apply List.Forall_app. split; [literal_name_chars|].
      apply List.Forall_app. split; [exact Hts | literal_name_chars].
    - apply List.Forall_app. split; [literal_name_chars|].
      apply List.Forall_app. split; [exact Hts|].
      apply List.Forall_app. split; [literal_name_chars|].
      apply List.Forall_app. split; [exact Hsafe | literal_name_chars]. }
  split; [exact Hall|].
  rewrite List.Forall_forall in Hall.
  repeat split; intros Hin; apply Hall in Hin;
    apply name_char_not_separator in Hin; tauto.
Qed.

Lemma default_name_separator_witness :
  let E := Concrete.env 1700000000 (fun _ => PostFailed []) in
  ~ In 0x2F%N (py "voice_1700000000_etcpasswd.wav").
Proof.
  intros E.
  apply (default_name_has_no_separator E (py "../../etc/passwd") true
           Concrete.empty_world (py "voice_1700000000_etcpasswd.wav")).
  reflexivity.
Defined.

(** ** More on batches *)

Lemma posts_app (a b : list event) : posts (a ++ b) = (posts a + posts b)%nat.
Proof. unfold posts. rewrite List.filter_app, length_app. reflexivity. Qed.

Lemma sleeps_app (a b : list event) : sleeps (a ++ b) = (sleeps a + sleeps b)%nat.
Proof. unfold sleeps. rewrite List.filter_app, length_app. reflexivity. Qed.

(** The effects of the call made for an item: no pause, at most one
    request, and exactly one for a valid item when the system does not
    fail. *)
Lemma generate_item_effects E output_dir item w :
  exists evs,
    trace (snd (generate_item E output_dir item w)) = evs ++ trace w
    /\ sleeps evs = 0%nat
    /\ (posts evs <= 1)%nat
    /\ (item_valid item = false -> evs = [])
    /\ (no_faults E -> item_valid item = true -> posts evs = 1%nat).
Proof.
  unfold generate_item.
  set (text := default (py "") (item_text item)).
  set (language := default (py "Chinese") (item_language item)).
  set (instruct := default (py "温柔的女声") (item_instruct item)).
  set (output_file := match item_filename item with
                      | Some f => if truthy f then Some (path_join E output_dir f) else None
                      | None => None
                      end).
  destruct (generate_audio E text language instruct output_file true w)
    as [res w'] eqn:Hrun. simpl.
  assert (Hvalid : item_valid item = truthy (strip text) && truthy (strip instruct))
    by reflexivity.
  destruct (generate_audio_validated E _ _ _ _ _ _ _ _ Hrun)
    as [(Ht & _ & ->) | [(_ & Hi & _ & ->) | (Ht & Hi & out & _ & Hcase)]].
  - exists []. rewrite Hvalid, Ht. simpl. repeat split; auto; try lia; discriminate.
  - exists []. rewrite Hvalid, Hi, andb_false_r. simpl.
    repeat split; auto; try lia; discriminate.
  - rewrite Hvalid, Ht, Hi. simpl.
    destruct Hcase as [(msg & Hmk & _ & ->) | (_ & Hafter)].
    + exists []. repeat split; auto; try lia; try discriminate.
      intros Hnf _. rewrite (Hnf w _) in Hmk. discriminate Hmk.
    + destruct (generate_audio_events E _ _ _ _ _ _ _ _ Hrun)
        as [-> | (out' & o & logs & _ & Htr & Hlogs)].
      * exfalso. cbv zeta in Hafter. unfold after_request in Hafter.
        destruct (http_post E _ _) as [m|m|r].
        -- destruct Hafter as [_ Hw]. apply (f_equal trace) in Hw.
           apply (f_equal (@length event)) in Hw. simpl in Hw. lia.
        -- destruct Hafter as [_ Hw]. apply (f_equal trace) in Hw.
           apply (f_equal (@length event)) in Hw. simpl in Hw. lia.
        -- destruct Hafter as [(_ & Hw & _) | (_ & Hsave)].
           ++ apply (f_equal trace) in Hw.
              apply (f_equal (@length event)) in Hw. simpl in Hw. lia.
           ++ apply save_audio_inv in Hsave as (_ & [Htr | Htr] & _);
                apply (f_equal (@length event)) in Htr; simpl in Htr; lia.
      * exists (logs ++ [EvPost (request_of text language instruct) o;
                         EvMkdir (path_parent E out')]).
        rewrite <- app_assoc. split; [exact Htr|].
        destruct Hlogs as [-> | ->]; unfold sleeps, posts; simpl;
          repeat split; auto; discriminate.
Qed.

(** The effects of the loop over the items numbered from [i] to [n]. *)
Lemma batch_loop_effects E output_dir delay n :
  forall items i results w results' w',
    (i + length items = S n)%nat ->
    batch_loop E output_dir delay n i items results w = (Returns results', w') ->
    exists evs,
      trace w' = evs ++ trace w
      /\ sleeps evs = (if positive delay then pred (length items) else 0)%nat
      /\ (forall d, In (EvSleep d) evs -> d = delay)
      /\ (posts evs <= length items)%nat
      /\ (no_faults E -> posts evs = length (List.filter item_valid items)).
Proof.
  induction items as [|item rest IH]; intros i results w results' w' Hi; simpl.
  - intros [= <- <-]. exists []. split; [reflexivity|].
    split; [by destruct (positive delay)|]. split; [intros d []|]. split; auto.
  - unfold bind at 1. rewrite process_item_stores_outcome.
    destruct (generate_item_effects E output_dir item w)
      as (evs1 & Htr1 & Hs1 & Hp1 & Hinvalid & Hvalid).
    set (w1 := snd (generate_item E output_dir item w)) in *.
    unfold bind at 1.
    simpl in Hi.
    assert (Hcond : (i <? n)%nat = negb (Nat.eqb (length rest) 0)).
    { destruct (length rest); simpl.
      - apply Nat.ltb_ge. lia.
      - apply Nat.ltb_lt. lia. }
    rewrite Hcond.
    destruct (negb (Nat.eqb (length rest) 0) && positive delay) eqn:Hsl.
    + unfold emit. intros Hrest.
      apply IH in Hrest as (evs & Htr & Hs & Hd & Hp & Hpv); [|lia].
      exists (evs ++ EvSleep delay :: evs1).
      simpl in Htr. rewrite Htr, Htr1, <- app_assoc. split; [reflexivity|].
      apply andb_true_iff in Hsl as [Hne Hpos]. rewrite Hpos in *.
      rewrite sleeps_app, posts_app.
      change (EvSleep delay :: evs1) with ([EvSleep delay] ++ evs1).
      rewrite sleeps_app, posts_app, Hs, Hs1. unfold sleeps at 1, posts at 2. simpl.
      split; [destruct (length rest); [discriminate Hne | lia]|].
      split.
      { intros d Hin. apply in_app_or in Hin as [Hin | [Hin | Hin]].
        - auto.
        - congruence.
        - exfalso. assert (Hz : (0 < sleeps evs1)%nat).
          { unfold sleeps. apply Nat.neq_0_lt_0. intros Hlen.
            apply length_zero_iff_nil in Hlen.
            assert (Hf : In (EvSleep d) (List.filter is_sleep evs1))
              by (apply filter_In; auto).
            rewrite Hlen in Hf. destruct Hf. }
          lia. }
      split; [lia|].
      intros Hnf. rewrite (Hpv Hnf).
      destruct (item_valid item) eqn:Hv; simpl.
      * rewrite (Hvalid Hnf eq_refl). lia.
      * rewrite (Hinvalid eq_refl). unfold posts. simpl. lia.
    + unfold ret. intros Hrest.
      apply IH in Hrest as (evs & Htr & Hs & Hd & Hp & Hpv); [|lia].
      exists (evs ++ evs1).
      rewrite Htr, Htr1, <- app_assoc. split; [reflexivity|].
      rewrite sleeps_app, posts_app, Hs, Hs1.
      split.
      { destruct (positive delay); [|reflexivity].
        rewrite andb_true_r in Hsl. apply negb_false_iff, Nat.eqb_eq in Hsl.
        rewrite Hsl. reflexivity. }
      split.
      { intros d Hin. apply in_app_or in Hin as [Hin | Hin]; [auto|].
        exfalso. assert (Hz : (0 < sleeps evs1)%nat).
        { unfold sleeps. apply Nat.neq_0_lt_0. intros Hlen.
          apply length_zero_iff_nil in Hlen.
          assert (Hf : In (EvSleep d) (List.filter is_sleep evs1))
            by (apply filter_In; auto).
          rewrite Hlen in Hf. destruct Hf. }
        lia. }
      split; [lia|].
      intros Hnf. rewrite (Hpv Hnf).
      destruct (item_valid item) eqn:Hv; simpl.
      * rewrite (Hvalid Hnf eq_refl). lia.
      * rewrite (Hinvalid eq_refl). unfold posts. simpl. lia.
Qed.

(** The effects of a whole batch. *)
Lemma batch_generate_effects E items output_dir delay w results w' evs :
  batch_generate E items output_dir delay w = (Returns results, w') ->
  trace w' = evs ++ trace w ->
  sleeps evs = (if positive delay then pred (length items) else 0)%nat
  /\ (forall d, In (EvSleep d) evs -> d = delay)
  /\ (posts evs <= length items)%nat
  /\ (no_faults E -> posts evs = length (List.filter item_valid items)).
Proof.
  unfold batch_generate, mkdir_parents, bind, sys, emit.
  destruct (os_error E w (SysMkdir output_dir)); [discriminate|].
  destruct (batch_loop E output_dir delay (length items) 1 items ∅
                       (record (EvMkdir output_dir) w)) as [[res1|e] w1] eqn:Hloop;
    [|discriminate].
  intros [= <- <-] Htr. simpl in Htr.
  apply batch_loop_effects in Hloop as (evs1 & Htr1 & Hs & Hd & Hp & Hpv); [|lia].
  rewrite Htr1 in Htr. simpl in Htr.
  change (EvLog (BatchDone (success_count res1) (length items))
          :: evs1 ++ EvMkdir output_dir :: trace w)
    with ([EvLog (BatchDone (success_count res1) (length items))]
          ++ evs1 ++ [EvMkdir output_dir] ++ trace w) in Htr.
  rewrite !app_assoc in Htr. apply app_inv_tail in Htr. subst evs.
  rewrite !sleeps_app, !posts_app. unfold sleeps at 1 3, posts at 1 3. simpl.
  rewrite !Nat.add_0_r. split; [exact Hs|]. split.
  { intros d [Hin | Hin]; [discriminate Hin|].
    apply in_app_or in Hin as [Hin | [Hin | []]]; [auto | discriminate Hin]. }
  split; [exact Hp | exact Hpv].
Qed.

(** X8: a batch that returns has paused between its items and not after
    the last one: with a positive delay there is one pause less than there
    are items, each of the delay asked for, and with a delay of zero or
    less there is none. *)
Theorem batch_pauses_between_items :
  forall E items output_dir delay w results w' evs,
    batch_generate E items output_dir delay w = (Returns results, w') ->
    trace w' = evs ++ trace w ->
    sleeps evs = (if positive delay then pred (length items) else 0)%nat
    /\ forall d, In (EvSleep d) evs -> d = delay.
Proof.
  intros E items output_dir delay w results w' evs Hrun Htr.
  destruct (batch_generate_effects E _ _ _ _ _ _ _ Hrun Htr) as (Hs & Hd & _).
  auto.
Qed.

Lemma batch_pauses_witness :
  let E := Concrete.env 0 (fun _ => PostResponse (Concrete.reply 200 [] [[Byte.x52]])) in
  let items :=
    [ {| item_text := Some (py "one"); item_language := None;
         item_instruct := None; item_filename := None |};
      {| item_text := None; item_language := None;
         item_instruct := None; item_filename := None |};
      {| item_text := Some (py "three"); item_language := None;
         item_instruct := None; item_filename := Some (py "3.wav") |} ] in
  sleeps (trace (snd (batch_generate E items (py "out") 0.5 Concrete.empty_world)))
  = 2%nat.
Proof.
  intros E items.
  set (run := batch_generate E items (py "out") 0.5 Concrete.empty_world).
  assert (Hrun : exists results, run = (Returns results, snd run)).
  { eexists. reflexivity. }
  destruct Hrun as [results Hrun].
  destruct (batch_pauses_between_items E items (py "out") 0.5 Concrete.empty_world
              results (snd run) (trace (snd run)) Hrun) as [Hs _].
  - symmetry. apply app_nil_r.
  - exact Hs.
Defined.

(** X9: a batch sends at most one request per item, and when the system
    does not fail exactly one for each item whose text and instruct are
    not blank: an item that fails validation costs no request, and no item
    is tried twice. *)
Theorem batch_requests_per_valid_item :
  forall E items output_dir delay w results w' evs,
    batch_generate E items output_dir delay w = (Returns results, w') ->
    trace w' = evs ++ trace w ->
    (posts evs <= length items)%nat
    /\ (no_faults E -> posts evs = length (List.filter item_valid items)).
Proof.
  intros E items output_dir delay w results w' evs Hrun Htr.
  destruct (batch_generate_effects E _ _ _ _ _ _ _ Hrun Htr) as (_ & _ & Hp & Hpv).
  auto.
Qed.

Lemma batch_requests_witness :
  let E := Concrete.env 0 (fun _ => PostResponse (Concrete.reply 500 (py "busy") [])) in
  let items :=
    [ {| item_text := Some (py "one"); item_language := None;
         item_instruct := None; item_filename := None |};
      {| item_text := None; item_language := None;
         item_instruct := None; item_filename := None |};
      {| item_text := Some (py "three"); item_language := None;
         item_instruct := Some (py " "); item_filename := Some (py "3.wav") |} ] in
  posts (trace (snd (batch_generate E items (py "out") 0 Concrete.empty_world)))
  = 1%nat.
Proof.
  intros E items.
  set (run := batch_generate E items (py "out") 0 Concrete.empty_world).
  assert (Hrun : exists results, run = (Returns results, snd run)).
  { eexists. reflexivity. }
  destruct Hrun as [results Hrun].
  destruct (batch_requests_per_valid_item E items (py "out") 0 Concrete.empty_world
              results (snd run) (trace (snd run)) Hrun) as [_ Hp].
  - symmetry. apply app_nil_r.
  - apply Hp. intros w c. reflexivity.
Defined.



Lemma batch_loop_keeps E output_dir delay n k :
  forall items i results w results' w',
    (forall x, In x items -> item_key x <> k) ->
    batch_loop E output_dir delay n i items results w = (Returns results', w') ->
    results' !! k = results !! k.
Proof.
  induction items as [|item rest IH]; intros i results w results' w' Hk; simpl.
  - intros [= <- <-]. reflexivity.
  - unfold bind at 1. rewrite process_item_stores_outcome. unfold bind at 1.
    assert (Hsleep : exists w2,
               (if (i <? n)%nat && positive delay then emit (EvSleep delay) else ret tt)
                 (snd (generate_item E output_dir item w)) = (Returns tt, w2)).
    { destruct ((i <? n)%nat && positive delay); eexists; reflexivity. }
    destruct Hsleep as [w2 ->]. intros Hrest.
    apply IH in Hrest; [|intros x Hx; apply Hk; by right].
    rewrite Hrest. apply lookup_insert_ne. apply Hk. by left.
Qed.

Lemma batch_loop_last E output_dir delay n item post :
  forall pre i results w results' w',
    (forall x, In x post -> item_key x <> item_key item) ->
    batch_loop E output_dir delay n i (pre ++ item :: post) results w
    = (Returns results', w') ->
    exists w0,
      results' !! item_key item
      = Some (outcome_value (fst (generate_item E output_dir item w0))).
Proof.
  induction pre as [|x pre IH]; intros i results w results' w' Hpost; simpl.
  - unfold bind at 1. rewrite process_item_stores_outcome. unfold bind at 1.
    assert (Hsleep : exists w2,
               (if (i <? n)%nat && positive delay then emit (EvSleep delay) else ret tt)
                 (snd (generate_item E output_dir item w)) = (Returns tt, w2)).
    { destruct ((i <? n)%nat && positive delay); eexists; reflexivity. }
    destruct Hsleep as [w2 ->]. intros Hrest.
    apply batch_loop_keeps with (k := item_key item) in Hrest; [|exact Hpost].
    exists w. rewrite Hrest. apply lookup_insert_eq.
  - unfold bind at 1. rewrite process_item_stores_outcome. unfold bind at 1.
    assert (Hsleep : exists w2,
               (if (i <? n)%nat && positive delay then emit (EvSleep delay) else ret tt)
                 (snd (generate_item E output_dir x w)) = (Returns tt, w2)).
    { destruct ((i <? n)%nat && positive delay); eexists; reflexivity. }
    destruct Hsleep as [w2 ->]. intros Hrest.
    eapply IH; eauto.
Qed.

(** X11: of several items with the same key, the last one is the one in
    the mapping: the value stored under the key of an item that no later
    item shares its key with is the outcome of the call made for that
    item, the outcomes of the earlier ones are gone. *)
Theorem last_item_with_a_key_wins :
  forall E pre item post output_dir delay w results w',
    batch_generate E (pre ++ item :: post) output_dir delay w = (Returns results, w') ->
    (forall x, In x post -> item_key x <> item_key item) ->
    exists w0,
      results !! item_key item
      = Some (outcome_value (fst (generate_item E output_dir item w0))).
Proof.
  intros E pre item post output_dir delay w results w' Hrun Hpost.
  unfold batch_generate, mkdir_parents, bind, sys, emit in Hrun.
  destruct (os_error E w (SysMkdir output_dir)); [discriminate|].
  destruct (batch_loop E output_dir delay (length (pre ++ item :: post)) 1
                       (pre ++ item :: post) ∅ (record (EvMkdir output_dir) w))
    as [[res1|e] w1] eqn:Hloop; [|discriminate].
  injection Hrun as <- _.
  eapply batch_loop_last; eauto.
Qed.

Lemma last_item_witness :
  let E := Concrete.env 0 (fun rq =>
             if bool_decide (req_instruct rq = py "deep")
             then PostFailed (py "Connection refused")
             else PostResponse (Concrete.reply 200 [] [[Byte.x52]])) in
  let first := {| item_text := Some (py "hello"); item_language := None;
                  item_instruct := Some (py "soft");
                  item_filename := Some (py "a.wav") |} in
  let last := {| item_text := Some (py "hello"); item_language := None;
                 item_instruct := Some (py "deep");
                 item_filename := Some (py "b.wav") |} in
  exists results w0,
    fst (batch_generate E ([first] ++ last :: []) (py "out") 0 Concrete.empty_world)
    = Returns results
    /\ results !! py "hello..."
       = Some (outcome_value (fst (generate_item E (py "out") last w0))).
Proof.
  intros E first last.
  set (run := batch_generate E ([first] ++ last :: []) (py "out") 0
                             Concrete.empty_world).
  assert (Hrun : exists results, run = (Returns results, snd run)).
  { eexists. reflexivity. }
  destruct Hrun as [results Hrun].
  destruct (last_item_with_a_key_wins E [first] last [] (py "out") 0
              Concrete.empty_world results (snd run) Hrun) as [w0 Hw0].
  - intros x [].
  - exists results, w0. split; [exact (f_equal fst Hrun) | exact Hw0].
Defined.

(** X12: an item without a text, or with a blank one, is recorded under
    its key with the message of the validation error, and nothing else
    happens for it: no directory is made and no request is sent. *)
Theorem blank_item_recorded_without_request :
  forall E output_dir item results w,
    strip (default [] (item_text item)) = [] ->
    process_item E output_dir item results w
    = (Returns (<[item_key item := py "ERROR: 文本内容不能为空"]> results), w).
Proof.
  intros E output_dir item results w Hblank.
  rewrite process_item_stores_outcome.
  assert (Hrun : forall language instruct output_file,
             generate_audio E (default [] (item_text item)) language instruct
                            output_file true w
             = (Raises (ValueError (py "文本内容不能为空") None), w)).
  { intros. unfold generate_audio. rewrite Hblank. reflexivity. }
  unfold generate_item. change (py "") with (@nil N). rewrite Hrun. reflexivity.
Qed.

Lemma blank_item_witness :
  process_item (Concrete.env 0 (fun _ => PostFailed [])) (py "out")
    {| item_text := None; item_language := None; item_instruct := None;
       item_filename := Some (py "a.wav") |} ∅ Concrete.empty_world
  = (Returns {[ py "..." := py "ERROR: 文本内容不能为空" ]}, Concrete.empty_world).
Proof.
  apply (blank_item_recorded_without_request
           (Concrete.env 0 (fun _ => PostFailed [])) (py "out")
           {| item_text := None; item_language := None; item_instruct := None;
              item_filename := Some (py "a.wav") |} ∅ Concrete.empty_world).
  reflexivity.
Defined.

(** ** More on listing audio files *)

Lemma str_leb_antisym (s t : pystr) :
  str_leb s t = true -> str_leb t s = true -> s = t.
Proof.
  revert t. induction s as [|a s IH]; intros [|b t]; simpl; auto; try discriminate.
  intros H1 H2.
  apply orb_true_iff in H1 as [H1 | H1]; apply orb_true_iff in H2 as [H2 | H2].
  - apply N.ltb_lt in H1, H2. lia.
  - apply andb_true_iff in H2 as [H2 _]. apply N.eqb_eq in H2.
    apply N.ltb_lt in H1. lia.
  - apply andb_true_iff in H1 as [H1 _]. apply N.eqb_eq in H1.
    apply N.ltb_lt in H2. lia.
  - apply andb_true_iff in H1 as [H1 H1']. apply andb_true_iff in H2 as [_ H2'].
    apply N.eqb_eq in H1. subst b. f_equal. auto.
Qed.

#[local] Instance str_le_antisymm : AntiSymm (=) str_le.
Proof. intros s t. apply str_leb_antisym. Qed.

Lemma filter_permutation {A} (f : A -> bool) (l l' : list A) :
  l ≡ₚ l' -> List.filter f l ≡ₚ List.filter f l'.
Proof.
  induction 1 as [|x l l' _ IH|x y l|l l' l'' _ IH1 _ IH2]; simpl.
  - reflexivity.
  - destruct (f x); [constructor|]; exact IH.
  - destruct (f x), (f y); try reflexivity. constructor.
  - etransitivity; eauto.
Qed.

(** X13: the list returned does not depend on the order in which the
    system lists the directory: two listings of the same entries give the
    same list. *)
Theorem listing_order_does_not_matter :
  forall E directory entries entries',
    entries ≡ₚ entries' ->
    list_audio_files E directory (Some (Dir entries))
    = list_audio_files E directory (Some (Dir entries')).
Proof.
  intros E directory entries entries' Hperm.
  apply (Sorted_unique str_le).
  - unfold list_audio_files. apply Sorted_merge_sort. apply _.
  - unfold list_audio_files. apply Sorted_merge_sort. apply _.
  - rewrite !list_audio_files_permutation. simpl.
    apply Permutation_map, filter_permutation, Hperm.
Qed.

Lemma listing_order_witness :
  let E := Concrete.env 0 (fun _ => PostFailed []) in
  list_audio_files E (py "out")
    (Some (Dir [(py "b.wav", File []); (py "a.mp3", File []); (py "c", Dir [])]))
  = list_audio_files E (py "out")
      (Some (Dir [(py "c", Dir []); (py "a.mp3", File []); (py "b.wav", File [])])).
Proof.
  intros E.
  apply (listing_order_does_not_matter E (py "out")
           [(py "b.wav", File []); (py "a.mp3", File []); (py "c", Dir [])]
           [(py "c", Dir []); (py "a.mp3", File []); (py "b.wav", File [])]).
  etransitivity; [apply perm_swap|].
  etransitivity; [apply perm_skip, perm_swap|].
  apply perm_swap.
Defined.

Lemma rfind_dot_from_app (a b : pystr) :
  forall i last,
    rfind_dot_from i (a ++ b) last
    = rfind_dot_from (i + length a) b (rfind_dot_from i a last).
Proof.
  induction a as [|c a IH]; intros i last; simpl.
  - rewrite Nat.add_0_r. reflexivity.
  - rewrite IH. f_equal. lia.
Qed.

Lemma rfind_dot_from_no_dot (s : pystr) :
  forall i last, ~ In 0x2E%N s -> rfind_dot_from i s last = last.
Proof.
  induction s as [|c s IH]; intros i last Hno; simpl; [reflexivity|].
  destruct (c =? 0x2E)%N eqn:Hc.
  - exfalso. apply Hno. left. by apply N.eqb_eq.
  - apply IH. intros Hin. apply Hno. by right.
Qed.

Lemma last_dot_split (s : pystr) :
  ~ In 0x2E%N s
  \/ exists stem ext, s = stem ++ 0x2E%N :: ext /\ ~ In 0x2E%N ext.
Proof.
  induction s as [|c s IH]; [left; intros []|].
  destruct IH as [Hno | (stem & ext & -> & Hext)].
  - destruct (N.eq_dec c 0x2E%N) as [-> | Hc].
    + right. exists [], s. auto.
    + left. intros [Hin | Hin]; [congruence | auto].
  - right. exists (c :: stem), ext. auto.
Qed.

(** The suffix of a name with a last dot: what follows the dot, unless
    nothing precedes the dot or nothing follows it. *)
Lemma suffix_after_last_dot (stem ext : pystr) :
  ~ In 0x2E%N ext ->
  suffix (stem ++ 0x2E%N :: ext)
  = match stem, ext with
    | _ :: _, _ :: _ => 0x2E%N :: ext
    | _, _ => []
    end.
Proof.
  intros Hext. unfold suffix, rfind_dot.
  rewrite rfind_dot_from_app.
  change (rfind_dot_from (0 + length stem) (0x2E%N :: ext) (rfind_dot_from 0 stem None))
    with (rfind_dot_from (S (length stem)) ext (Some (length stem))).
  rewrite rfind_dot_from_no_dot by exact Hext.
  rewrite length_app.
  change (length (0x2E%N :: ext)) with (S (length ext)).
  destruct stem as [|c stem]; [reflexivity|].
  remember (length (c :: stem)) as n eqn:Hn0.
  assert (Hn : (0 < n)%nat) by (rewrite Hn0; simpl; lia).
  assert (H0 : (0 <? n)%nat = true) by (apply Nat.ltb_lt; exact Hn).
  rewrite H0.
  destruct ext as [|e ext].
  - assert (H1 : (n <? n + S (length (@nil N)) - 1)%nat = false)
      by (apply Nat.ltb_ge; simpl; lia).
    rewrite H1. reflexivity.
  - assert (H1 : (n <? n + S (length (e :: ext)) - 1)%nat = true)
      by (apply Nat.ltb_lt; simpl; lia).
    rewrite H1. rewrite Hn0. simpl andb. cbv iota.
    apply drop_app_length.
Qed.

Lemma suffix_no_dot (name : pystr) : ~ In 0x2E%N name -> suffix name = [].
Proof.
  intros Hno. unfold suffix, rfind_dot.
  rewrite rfind_dot_from_no_dot by exact Hno. reflexivity.
Qed.

Lemma empty_not_allowed E : ~ In (lower E []) allowed.
Proof.
  simpl. intros H. repeat (destruct H as [H | H]; [discriminate H|]). destruct H.
Qed.

(** X14: a path is listed exactly when it is that of a regular file of the
    directory whose name is a non-empty stem, a dot, and an allow-listed
    extension without a dot in it, letter case set aside.  So [.wav],
    [wav] and [a.wav.] are not listed, and of [a.tar.wav] only the part
    after the last dot counts. *)
Theorem listed_names_have_stem_and_extension :
  forall E directory d p,
    In p (list_audio_files E directory d)
    <-> exists stem ext content,
          In (stem ++ 0x2E%N :: ext, File content) (glob_star d)
          /\ stem <> [] /\ ~ In 0x2E%N ext
          /\ In (lower E ext) allowed
          /\ p = path_join E directory (stem ++ 0x2E%N :: ext).
Proof.
  intros E directory d p. rewrite <- list_elem_of_In.
  rewrite (list_audio_files_permutation E directory d).
  rewrite list_elem_of_In, in_map_iff. split.
  - intros ([name nd] & <- & Hin). apply filter_In in Hin as [Hin Haudio].
    apply is_audio_iff in Haudio as [[content Hfile] Hext]. simpl in *. subst nd.
    destruct (last_dot_split name) as [Hno | (stem & ext & -> & Hdot)].
    { exfalso. unfold extension in Hext. rewrite (suffix_no_dot name Hno) in Hext.
      exact (empty_not_allowed E Hext). }
    unfold extension in Hext. rewrite (suffix_after_last_dot stem ext Hdot) in Hext.
    destruct stem as [|c stem]; [exfalso; exact (empty_not_allowed E Hext)|].
    destruct ext as [|e ext]; [exfalso; exact (empty_not_allowed E Hext)|].
    exists (c :: stem), (e :: ext), content.
    repeat split; auto; discriminate.
  - intros (stem & ext & content & Hin & Hstem & Hdot & Hext & ->).
    exists (stem ++ 0x2E%N :: ext, File content). split; [reflexivity|].
    apply filter_In. split; [exact Hin|].
    apply is_audio_iff. simpl. split; [eauto|].
    unfold extension. rewrite (suffix_after_last_dot stem ext Hdot).
    destruct stem as [|c stem]; [congruence|].
    destruct ext as [|e ext]; [exfalso; exact (empty_not_allowed E Hext)|].
    exact Hext.
Qed.

Example names_without_stem_or_extension_are_skipped :
  list_audio_files (Concrete.env 0 (fun _ => PostFailed [])) (py ".")
    (Some (Dir [(py ".wav", File []); (py "wav", File []); (py "a.wav.", File []);
                (py "a.tar.wav", File []); (py ".hidden.mp3", File [])]))
  = [py ".hidden.mp3"; py "a.tar.wav"].
Proof. reflexivity. Qed.

(** ** The status check (client.py, lines 49-76) *)

(** X15: [check_server_status] changes nothing and raises whatever went
    wrong as it came: the timeout or transport error of the request, the
    [HTTPError] of any status from 400 to 599, 500 included (no translation
    into a [ValueError] here), the [ValueError] of a body that is not JSON;
    otherwise it returns the parsed body. *)
Theorem status_check_outcomes :
  forall (json : Type) http_get (response_json : response -> json + pystr) w res w',
    check_server_status json http_get response_json w = (res, w') ->
    w' = w
    /\ match http_get w with
       | GetTimeout msg => res = Raises (Timeout msg)
       | GetFailed msg => res = Raises (RequestException msg)
       | GetResponse r =>
           (error_status r ->
            exists h, res = Raises (HTTPError h) /\ he_response h = r)
           /\ (~ error_status r ->
               res = match response_json r with
                     | inl data => Returns data
                     | inr msg => Raises (ValueError msg None)
                     end)
       end.
Proof.
  intros json http_get response_json w res w'.
  unfold check_server_status, try_except, bind, requests_get.
  destruct (http_get w) as [msg|msg|r].
  - intros [= <- <-]. auto.
  - intros [= <- <-]. auto.
  - destruct (raise_for_status_cases r) as [[Herr (h & Hr & Hh)] | [Hok Hr]];
      rewrite Hr.
    + unfold raise. intros [= <- <-]. split; [reflexivity|]. split.
      * intros _. eauto.
      * intros Hno. contradiction.
    + unfold ret. destruct (response_json r) as [data|msg]; unfold ret, raise;
        intros [= <- <-]; (split; [reflexivity|]); split; auto; contradiction.
Qed.

Lemma status_check_witness :
  let r := Concrete.reply 500 (py "Internal Server Error") [] in
  exists h,
    fst (check_server_status unit (fun _ => GetResponse r) (fun _ => inl tt)
           Concrete.empty_world)
    = Raises (HTTPError h) /\ he_response h = r.
Proof.
  intros r.
  destruct (status_check_outcomes unit (fun _ => GetResponse r) (fun _ => inl tt)
              Concrete.empty_world
              (fst (check_server_status unit (fun _ => GetResponse r)
                      (fun _ => inl tt) Concrete.empty_world))
              (snd (check_server_status unit (fun _ => GetResponse r)
                      (fun _ => inl tt) Concrete.empty_world))
              eq_refl) as [_ [Herr _]].
  apply Herr. unfold error_status. simpl. lia.
Defined.

(** ** The command line (client.py, lines 296-343) *)



(** ** The endpoint and its start (server.py) *)


(** X18: the start of the service either stores the model that was loaded,
    and from then on no request is answered by the missing-model guard:
    each is answered by that model; or it raises again what the loader
    raised and leaves the global as it was, so the start is aborted. *)
Theorem startup_loads_the_model_or_aborts :
  forall (samples : Type) from_pretrained model outcome model',
    Service.startup_event samples from_pretrained model = (outcome, model') ->
    match outcome with
    | Server.Ok _ =>
        exists m,
          from_pretrained = Server.Ok m /\ model' = Some m
          /\ forall sf_write text language instruct,
               Server.status (Server.post_generate_audio samples model' sf_write
                                text language instruct) = 200%Z
               <-> exists wav0 rest sr audio,
                     m text language instruct = Server.Ok (wav0 :: rest, sr)
                     /\ sf_write wav0 sr = Server.Ok audio
    | Server.Raised e => from_pretrained = Server.Raised e /\ model' = model
    end.
Proof.
  intros samples from_pretrained model outcome model'.
  unfold Service.startup_event, Service.init_model.
  destruct from_pretrained as [m|e]; intros [= <- <-]; [|auto].
  exists m. split; [reflexivity|]. split; [reflexivity|].
  intros sf_write text language instruct.
  unfold Server.post_generate_audio, Server.generate_audio, Server.generate_audio_try.
  destruct (m text language instruct) as [[wavs sr]|e].
  2:{ split; [discriminate|]. intros (? & ? & ? & ? & H & _). discriminate H. }
  destruct wavs as [|wav0 rest].
  { split; [discriminate|]. intros (? & ? & ? & ? & H & _). discriminate H. }
  destruct (sf_write wav0 sr) as [audio|e] eqn:Hsf.
  - split; [|reflexivity]. intros _. exists wav0, rest, sr, audio. auto.
  - split; [discriminate|]. intros (? & ? & ? & ? & [= <- <- <-] & H).
    rewrite Hsf in H. discriminate H.
Qed.

Lemma startup_witness :
  exists m,
    Server.Ok (fun _ _ _ => Server.Ok ([tt], 24000%Z)) = Server.Ok m
    /\ Some (fun (_ _ _ : pystr) => Server.Ok ([tt], 24000%Z)) = Some m
    /\ forall sf_write text language instruct,
         Server.status (Server.post_generate_audio unit
                          (Some (fun _ _ _ => Server.Ok ([tt], 24000%Z))) sf_write
                          text language instruct) = 200%Z
         <-> exists wav0 rest sr audio,
               m text language instruct = Server.Ok (wav0 :: rest, sr)
               /\ sf_write wav0 sr = Server.Ok audio.
Proof.
  exact (startup_loads_the_model_or_aborts unit
           (Server.Ok (fun _ _ _ => Server.Ok ([tt], 24000%Z))) None
           (Server.Ok tt) (Some (fun _ _ _ => Server.Ok ([tt], 24000%Z))) eq_refl).
Defined.

Example main_lists_without_a_request :
  main (fun _ _ => Concrete.env 0 (fun _ => PostFailed []))
       (fun _ => Some (Dir [(py "b.wav", File []); (py "a.mp3", File [])]))
       {| args_text := py "ignored"; args_instruct := py "温柔的女声";
          args_language := py "Chinese"; args_output := None;
          args_host := py "localhost"; args_port := 8867;
          args_list_audio := Some (py "out") |}
       Concrete.empty_world
  = (Returns ([py "📁 out 中的音频文件:"; py "  🎵 out/a.mp3"; py "  🎵 out/b.wav"], 0%Z),
     Concrete.empty_world).
Proof. reflexivity. Qed.

Example main_reports_a_blank_text :
  main (fun _ _ => Concrete.env 0 (fun _ => PostFailed []))
       (fun _ => None)
       {| args_text := py " "; args_instruct := py "温柔的女声";
          args_language := py "Chinese"; args_output := None;
          args_host := py "localhost"; args_port := 8867;
          args_list_audio := None |}
       Concrete.empty_world
  = (Returns ([py "❌ 错误: 文本内容不能为空"], 1%Z), Concrete.empty_world).
Proof. reflexivity. Qed.

(** ** The client against the endpoint *)

Section EndToEnd.

Variable E : Env.
Hypothesis no_fault : no_faults E.

Lemma sys_ok c w : sys E c w = (Returns tt, w).
Proof. unfold sys. rewrite (no_fault w c). reflexivity. Qed.

Lemma write_chunks_ok path chunks :
  forall w, exists w', write_chunks E path chunks None w = (Returns tt, w').
Proof.
  induction chunks as [|chunk rest IH]; intros w; simpl.
  - eexists. reflexivity.
  - destruct chunk as [|b chunk]; [apply IH|].
    unfold bind at 1, write, bind. rewrite sys_ok. simpl. apply IH.
Qed.

(** When nothing fails, a whole response is saved whole. *)
Lemma save_audio_ok out r w :
  body_error r = None ->
  exists w',
    save_audio E out r w = (Returns out, w')
    /\ files w' !! out = Some (concat (body r)).
Proof.
  intros Herr.
  destruct (save_audio E out r w) as [res w'] eqn:Hsave.
  pose proof Hsave as Hcourse.
  unfold save_audio, open_wb in Hsave.
  unfold bind at 1 in Hsave. unfold bind at 1 in Hsave. rewrite sys_ok in Hsave.
  unfold get_world, set_files, bind at 1 in Hsave.
  unfold bind at 1 in Hsave. rewrite Herr in Hsave.
  destruct (write_chunks_ok out (body r)
              {| files := <[out:=[]]> (files w); trace := trace w |}) as [w2 Hwc].
  rewrite Hwc in Hsave.
  apply write_chunks_inv in Hwc as (_ & _ & _ & Hdone).
  destruct (Hdone eq_refl) as [_ Hlk]. simpl in Hlk.
  rewrite lookup_insert_eq in Hlk. simpl in Hlk.
  unfold stat_size in Hsave. unfold bind at 1 in Hsave. unfold bind at 1 in Hsave.
  rewrite sys_ok in Hsave. unfold get_world, bind at 1 in Hsave.
  rewrite Hlk in Hsave. unfold ret at 1 in Hsave. unfold bind at 1 in Hsave.
  exists w'.
  destruct (Z.of_nat (length (concat (body r))) <? 1000)%Z;
    unfold emit, ret, bind in Hsave; injection Hsave as <- <-; auto.
Qed.

End EndToEnd.

Lemma json_plain_kept (s : pystr) :
  Forall Service.json_plain s -> flat_map Service.json_escape_char s = s.
Proof.
  induction 1 as [|c s (Hlo & Hq & Hb) _ IH]; [reflexivity|].
  simpl. rewrite IH. unfold Service.json_escape_char.
  assert (Hne : forall k, k <> c -> (c =? k)%N = false).
  { intros k Hk. apply N.eqb_neq. congruence. }
  rewrite (Hne 0x22%N), (Hne 0x5C%N) by congruence.
  rewrite (Hne 0x08%N), (Hne 0x0C%N), (Hne 0x0A%N), (Hne 0x0D%N), (Hne 0x09%N) by lia.
  assert (H20 : (c <? 0x20)%N = false) by (apply N.ltb_ge; exact Hlo).
  rewrite H20. reflexivity.
Qed.

Ltac json_plain_literal :=
  repeat (apply List.Forall_cons;
          [split; [cbv; discriminate | split; discriminate]|]);
  apply List.Forall_nil.

(** The body of an error answer shows the detail as it is when the detail
    needs no escaping. *)
Lemma json_detail_contains (prefix msg : pystr) :
  Forall Service.json_plain prefix -> Forall Service.json_plain msg ->
  contains (Service.json_detail (prefix ++ msg)) msg.
Proof.
  intros Hp Hm. unfold Service.json_detail, Service.json_string.
  rewrite (json_plain_kept (prefix ++ msg)) by (apply List.Forall_app; auto).
  exists (py "{" ++ ([0x22%N] ++ flat_map Service.json_escape_char (py "detail")
                      ++ [0x22%N]) ++ py ":" ++ [0x22%N] ++ prefix),
         ([0x22%N] ++ py "}").
  rewrite <- !app_assoc. reflexivity.
Qed.

(** X19: the client against the endpoint of server.py, nothing failing on
    the way: when the model returns at least one array and the encoder
    accepts the first, a call with a text and an instruct that are not
    blank returns its destination, and the file there holds exactly the
    bytes the encoder produced. *)
Theorem served_audio_is_saved_as_encoded :
  forall E (samples : Type) generate_voice_design
         (sf_write : samples -> Z -> Server.result bytes)
         text language instruct output_file auto_timestamp w wav0 rest sr audio,
    Service.served_by E samples (Some generate_voice_design) sf_write ->
    no_faults E ->
    truthy (strip text) = true ->
    truthy (strip instruct) = true ->
    generate_voice_design text language instruct = Server.Ok (wav0 :: rest, sr) ->
    sf_write wav0 sr = Server.Ok audio ->
    exists path w',
      generate_audio E text language instruct output_file auto_timestamp w
      = (Returns path, w')
      /\ destination E text output_file auto_timestamp w path
      /\ files w' !! path = Some audio.
Proof.
  intros E samples gvd sf_write text language instruct output_file auto_timestamp w
         wav0 rest sr audio Hserved Hnf Ht Hi Hgvd Hsf.
  destruct (generate_audio E text language instruct output_file auto_timestamp w)
    as [res w'] eqn:Hrun.
  destruct (generate_audio_validated E _ _ _ _ _ _ _ _ Hrun)
    as [(Ht' & _) | [(_ & Hi' & _) | (_ & _ & out & Hout & Hcase)]];
    [congruence | congruence |].
  destruct Hcase as [(msg & Hmk & _) | (_ & Hafter)].
  { rewrite (Hnf w _) in Hmk. discriminate Hmk. }
  cbv zeta in Hafter.
  destruct (Hserved (record (EvMkdir (path_parent E out)) w)
                    (request_of text language instruct)) as (r & Hpost & Hdel).
  rewrite Hpost in Hafter. unfold after_request in Hafter.
  unfold Server.post_generate_audio, Server.generate_audio, Server.generate_audio_try
    in Hdel.
  simpl in Hdel. rewrite Hgvd, Hsf in Hdel.
  destruct Hdel as (Hstatus & Herr & Hbody). simpl in Hstatus, Hbody.
  destruct Hafter as [(Hes & _) | (_ & Hsave)].
  { unfold error_status in Hes. lia. }
  destruct (save_audio_ok E Hnf out r
              (record (EvPost (request_of text language instruct) (PostResponse r))
                      (record (EvMkdir (path_parent E out)) w)) Herr)
    as (w2 & Hok & Hlk).
  rewrite Hok in Hsave. injection Hsave as Hres Hw. subst res w'.
  exists out, w2. split; [reflexivity|]. split; [exact Hout|].
  rewrite <- Hbody. exact Hlk.
Qed.

Lemma served_audio_witness :
  let gvd := fun (_ _ _ : pystr) => @Server.Ok (list unit * Z) ([tt], 24000%Z) in
  let sf_write := fun (_ : unit) (_ : Z) => Server.Ok [Byte.x52; Byte.x49] in
  let E := Concrete.env 0 (fun _ =>
             PostResponse (Concrete.reply 200 [] [[Byte.x52]; [Byte.x49]])) in
  exists path w',
    generate_audio E (py "hello") (py "Chinese") (py "x") (Some (py "h.wav")) true
                   Concrete.empty_world = (Returns path, w')
    /\ destination E (py "hello") (Some (py "h.wav")) true Concrete.empty_world path
    /\ files w' !! path = Some [Byte.x52; Byte.x49].
Proof.
  intros gvd sf_write E.
  apply (served_audio_is_saved_as_encoded E unit gvd sf_write (py "hello")
           (py "Chinese") (py "x") (Some (py "h.wav")) true Concrete.empty_world
           tt [] 24000%Z [Byte.x52; Byte.x49]).
  - intros w rq. eexists. split; [reflexivity|].
    split; [reflexivity|]. split; reflexivity.
  - intros w c. reflexivity.
  - reflexivity.
  - reflexivity.
  - reflexivity.
  - reflexivity.
Defined.

(** X20: the client against the endpoint when the model is missing or
    raises: a call that reaches the service raises a [ValueError] caused by
    the status 500, no file is made, and the message is the client's
    prefix followed by the JSON body of the answer; when the message of the
    exception needs no escaping in JSON, it is part of the message the
    caller gets. *)
Theorem model_failure_reaches_the_caller :
  forall E (samples : Type) model (sf_write : samples -> Z -> Server.result bytes)
         text language instruct output_file auto_timestamp w res w' e,
    Service.served_by E samples model sf_write ->
    no_faults E ->
    truthy (strip text) = true ->
    truthy (strip instruct) = true ->
    (model = None /\ e = Server.HTTPException 500 (py "模型未加载")
     \/ exists generate_voice_design,
         model = Some generate_voice_design
         /\ generate_voice_design text language instruct = Server.Raised e) ->
    generate_audio E text language instruct output_file auto_timestamp w = (res, w') ->
    files w' = files w
    /\ exists h,
        res = Raises (ValueError
                        (py "音频生成失败: "
                         ++ Service.json_detail (py "音频生成失败: " ++ Server.str_exn e))
                        (Some h))
        /\ (Forall Service.json_plain (Server.str_exn e) ->
            contains (py "音频生成失败: "
                      ++ Service.json_detail (py "音频生成失败: " ++ Server.str_exn e))
                     (Server.str_exn e)).
Proof.
  intros E samples model sf_write text language instruct output_file auto_timestamp
         w res w' e Hserved Hnf Ht Hi Hfail Hrun.
  destruct (generate_audio_validated E _ _ _ _ _ _ _ _ Hrun)
    as [(Ht' & _) | [(_ & Hi' & _) | (_ & _ & out & Hout & Hcase)]];
    [congruence | congruence |].
  destruct Hcase as [(msg & Hmk & _) | (_ & Hafter)].
  { rewrite (Hnf w _) in Hmk. discriminate Hmk. }
  cbv zeta in Hafter.
  destruct (Hserved (record (EvMkdir (path_parent E out)) w)
                    (request_of text language instruct)) as (r & Hpost & Hdel).
  rewrite Hpost in Hafter. unfold after_request in Hafter.
  assert (Hanswer :
            Server.post_generate_audio samples model sf_write text language instruct
            = {| Server.status := 500;
                 Server.response_body :=
                   Server.JsonDetail (py "音频生成失败: " ++ Server.str_exn e) |}).
  { unfold Server.post_generate_audio, Server.generate_audio,
      Server.generate_audio_try.
    destruct Hfail as [[-> ->] | (gvd & -> & Hgvd)]; [reflexivity|].
    rewrite Hgvd. reflexivity. }
  simpl in Hdel. rewrite Hanswer in Hdel.
  destruct Hdel as (Hstatus & _ & Hbody). simpl in Hstatus, Hbody.
  destruct Hafter as [(_ & -> & h & _ & _ & Hres) | (Hok & _)].
  2:{ exfalso. apply Hok. unfold error_status. lia. }
  split; [reflexivity|]. exists h.
  rewrite Hstatus in Hres. simpl in Hres. rewrite Hbody in Hres.
  split; [exact Hres|].
  intros Hplain. apply contains_app_r.
  apply json_detail_contains; [json_plain_literal | exact Hplain].
Qed.

Lemma model_failure_witness :
  let model := Some (fun (_ _ _ : pystr) =>
                       @Server.Raised (list unit * Z)
                         (Server.Exception (py "unsupported language"))) in
  let sf_write := fun (_ : unit) (_ : Z) => @Server.Ok bytes [] in
  let E := Concrete.env 0 (fun rq =>
             PostResponse
               (Concrete.reply 500
                  (Service.json_detail (py "音频生成失败: unsupported language")) [])) in
  contains
    (str_exn match fst (generate_audio E (py "hello") (py "Klingon") (py "x")
                          (Some (py "h.wav")) true Concrete.empty_world) with
             | Raises e => e
             | Returns _ => IOError []
             end)
    (py "unsupported language").
Proof.
  intros model sf_write E.
  destruct (model_failure_reaches_the_caller E unit model sf_write (py "hello")
              (py "Klingon") (py "x") (Some (py "h.wav")) true Concrete.empty_world
              (fst (generate_audio E (py "hello") (py "Klingon") (py "x")
                      (Some (py "h.wav")) true Concrete.empty_world))
              (snd (generate_audio E (py "hello") (py "Klingon") (py "x")
                      (Some (py "h.wav")) true Concrete.empty_world))
              (Server.Exception (py "unsupported language")))
    as (_ & h & Hres & Hmsg).
  - intros w rq. eexists. split; [reflexivity|].
    split; [reflexivity|]. split; reflexivity.
  - intros w c. reflexivity.
  - reflexivity.
  - reflexivity.
  - right. eexists. split; reflexivity.
  - reflexivity.
  - rewrite Hres. apply Hmsg. json_plain_literal.
Defined.
